(** * Campus Guide: the header reducer and the tab navigation shell

    A shallow embedding of [src/reducers/header.js] (the header state
    reducer) and of the navigation and search logic of
    [js/components/Tabs.js] (the [TabsCommon] component), followed by the
    properties of the two that the specification states and by further
    properties that the code shows.

    JavaScript values are modelled by [jsval]; objects that are used as
    records of named fields (actions, translations) are finite maps from
    field names to values. *)

From stdpp Require Import base strings gmap list.
From Stdlib Require Import ZArith Lia.

Set Warnings "-register-all".

Open Scope Z_scope.

(** ** JavaScript values *)

(** The values that flow through the reducer. Numbers are those that hold
    an integer (screen ids, counters) together with [NaN]; an object is the
    finite map of its own properties. *)
Inductive jsval : Type :=
  | JUndefined
  | JNull
  | JBool (b : bool)
  | JNum (n : Z)
  | JNaN
  | JStr (s : string)
  | JObj (fields : gmap string jsval).

(** [ToBoolean]: what [v ? _ : _], [v && _] and [v || _] test. *)
Definition truthy (v : jsval) : bool :=
  match v with
  | JUndefined | JNull | JNaN => false
  | JBool b => b
  | JNum n => negb (n =? 0)
  | JStr s => negb (String.eqb s "")
  | JObj _ => true
  end.

(** [o.k] on an object held as a map: a missing property reads as
    [undefined]. *)
Definition field (o : gmap string jsval) (k : string) : jsval :=
  default JUndefined (o !! k).

(** [v.k] for the property names the source reads from parsed JSON
    ([en], [fr], [app_name]): only an object can carry them. The source
    guards every such read with a truthiness test, so it is never applied
    to [null] or [undefined]. *)
Definition prop (v : jsval) (k : string) : jsval :=
  match v with
  | JObj o => field o k
  | _ => JUndefined
  end.

(** [v === 'lit']: strict equality against a string literal. *)
Definition strict_eq_str (v : jsval) (lit : string) : bool :=
  match v with
  | JStr s => String.eqb s lit
  | _ => false
  end.

(** [a || b] *)
Definition js_or (a b : jsval) : jsval := if truthy a then a else b.

(** *** Numbers that hold integers

    A number is a binary64 float. One that holds an integer is modelled by
    that integer; the sum of two such numbers is their exact sum rounded to
    the nearest float, to the one with the even significand when two are
    as near. *)

(** [2^53]: up to it every integer is a float. *)
Definition maxExact : Z := 9007199254740992.

(** The float nearest to an integer (of magnitude below [2^1024]). Above
    [2^53] a float keeps the top 53 bits of the magnitude; the [e] bits
    below them are rounded away. *)
Definition round_double (z : Z) : Z :=
  let m := Z.abs z in
  if m <=? maxExact then z
  else
    let e := Z.log2 m - 52 in
    let q := m / 2 ^ e in
    let r := m mod 2 ^ e in
    let half := 2 ^ (e - 1) in
    let q' :=
      if r <? half then q
      else if half <? r then q + 1
      else if Z.even q then q else q + 1 in
    Z.sgn z * (q' * 2 ^ e).

(** [n + 1] *)
Definition js_add1 (n : Z) : Z := round_double (n + 1).

(** ** The header reducer ([src/reducers/header.js]) *)

Module Header.

(** An action is an object; [action.type] and the payload fields are read
    from it by name. *)
Abbreviation Action := (gmap string jsval).

(** [type State]. [backNavigation] is a number that holds an integer (a
    count), on which [+ 1] is [js_add1]. The other three fields hold
    whatever value the last action carried. *)
Record State : Type := mkState {
  backNavigation : Z;
  title : jsval;
  shouldShowBack : jsval;
  shouldShowSearch : jsval;
}.

Section Reducer.

(** The parsed [assets/json/CoreTranslations] file. *)
Variable CoreTranslations : jsval.

Definition defaultTitle : jsval :=
  JObj (<["name_en" :=
            if truthy CoreTranslations && truthy (prop CoreTranslations "en")
            then prop (prop CoreTranslations "en") "app_name"
            else JStr "Campus Guide"]>
        (<["name_fr" :=
            if truthy CoreTranslations && truthy (prop CoreTranslations "fr")
            then prop (prop CoreTranslations "fr") "app_name"
            else JStr "Guide de campus"]> ∅)).

Definition initialState : State :=
  {| backNavigation := 0;
     title := defaultTitle;
     shouldShowBack := JBool false;
     shouldShowSearch := JBool false |}.

(** [function header(state = initialState, action)]. An absent ([undefined])
    state argument is [None]; the default parameter replaces it. *)
Definition header (state : option State) (action : Action) : State :=
  let state := default initialState state in
  let type := field action "type" in
  if strict_eq_str type "NAVIGATE_BACK" then
    {| backNavigation := js_add1 (backNavigation state);
       title := title state;
       shouldShowBack := shouldShowBack state;
       shouldShowSearch := shouldShowSearch state |}
  else if strict_eq_str type "SET_HEADER_TITLE" then
    {| backNavigation := backNavigation state;
       title := js_or (field action "title") (title initialState);
       shouldShowBack := shouldShowBack state;
       shouldShowSearch := shouldShowSearch state |}
  else if strict_eq_str type "HEADER_SHOW_BACK" then
    {| backNavigation := backNavigation state;
       title := title state;
       shouldShowBack := field action "shouldShowBack";
       shouldShowSearch := shouldShowSearch state |}
  else if strict_eq_str type "HEADER_SHOW_SEARCH" then
    {| backNavigation := backNavigation state;
       title := title state;
       shouldShowBack := shouldShowBack state;
       shouldShowSearch := field action "shouldShowSearch" |}
  else state.

(** What a call of the reducer comes to: the state it returns, or the
    [TypeError] it throws. *)
Inductive Outcome : Type :=
  | Returns (state : State)
  | Throws_TypeError.

(** The reducer called with any value for an action. [action.type] throws
    on [null] and [undefined]; on a value that is not an object (a boolean,
    a number, a string) it reads [undefined], as does every other property
    the reducer would read, which is how an object with no property
    reads. *)
Definition header_any (state : option State) (action : jsval) : Outcome :=
  match action with
  | JUndefined | JNull => Throws_TypeError
  | JObj fields => Returns (header state fields)
  | JBool _ | JNum _ | JNaN | JStr _ => Returns (header state ∅)
  end.

(** The state a store holds after reducing a list of actions in order. *)
Definition reduce_all (s : State) (actions : list Action) : State :=
  fold_left (λ s a, header (Some s) a) actions s.

End Reducer.

(** The four action kinds the reducer tells apart. *)
Definition recognized (type : jsval) : Prop :=
  type = JStr "NAVIGATE_BACK" ∨ type = JStr "SET_HEADER_TITLE"
  ∨ type = JStr "HEADER_SHOW_BACK" ∨ type = JStr "HEADER_SHOW_SEARCH".

(** How many actions of a list the reducer takes for [NAVIGATE_BACK]. *)
Fixpoint backCount (actions : list Action) : nat :=
  match actions with
  | [] => O
  | a :: rest =>
      if strict_eq_str (field a "type") "NAVIGATE_BACK"
      then S (backCount rest) else backCount rest
  end.

(** A translations file carrying both application names. *)
Definition sampleTranslations : jsval :=
  JObj (<["en" := JObj {["app_name" := JStr "Campus Guide"]}]>
        (<["fr" := JObj {["app_name" := JStr "Guide de campus"]}]> ∅)).

End Header.

(** ** The tab navigation shell ([js/components/Tabs.js]) *)

Module Tabs.

(** A screen id: [number | string], compared with [===]. *)
Inductive ScreenId : Type :=
  | SNum (n : Z)
  | SStr (s : string).

#[global] Instance ScreenId_eq_dec : EqDecision ScreenId.
Proof. solve_decision. Defined.

(** A search listener; the component only ever calls its [onSearch]. It is
    the listener that the component registers as the default one when it
    mounts, [{onSearch: this._searchAll}], or a listener of another
    module, known by its handle. *)
Inductive SearchListener : Type :=
  | Listener (handle : nat)
  | TabsSearchAll.

#[global] Instance SearchListener_eq_dec : EqDecision SearchListener.
Proof. solve_decision. Defined.

(** The calls the component makes on its collaborators (the navigator and
    the navigation bar it renders, the layout animation, the search
    manager and the search listeners), in the order it makes them. A call
    on another module is recorded, not run: what the collaborator does with
    it is its own business. The [onSearch] of the component's own listener
    is recorded and run: it is [_searchAll]. *)
Inductive Call : Type :=
  | Navigator_pop
  | Navigator_push (id : ScreenId) (data : jsval)
  | Navigator_resetTo (id : ScreenId)
  | NavBar_setState_showBackButton (show : bool)
  | NavBar_clearSearch
  | LayoutAnimation_easeInEaseOut
  | SearchManager_resumeAllSearchListeners
  | onSearch (listener : SearchListener) (searchTerms : option string).

(** What the component owns: the module-level [screenStack], the
    [currentTab] of its React state and the [_ignoreNextSearch] member
    (unset reads as false). *)
Record TabsCommon : Type := mkTabs {
  screenStack : list ScreenId;
  currentTab : Z;
  _ignoreNextSearch : bool;
}.

(** A method of the component: it reads and updates the component and
    emits calls. *)
Definition M (A : Type) : Type := TabsCommon → A * TabsCommon * list Call.

Definition ret {A} (a : A) : M A := λ s, (a, s, []).

Definition bind {A B} (m : M A) (k : A → M B) : M B :=
  λ s, let '(a, s1, c1) := m s in
       let '(b, s2, c2) := k a s1 in
       (b, s2, c1 ++ c2).

Definition gets {A} (f : TabsCommon → A) : M A := λ s, (f s, s, []).

Definition modify (f : TabsCommon → TabsCommon) : M unit := λ s, (tt, f s, []).

Definition call (c : Call) : M unit := λ s, (tt, s, [c]).

Declare Scope tabs_scope.
Delimit Scope tabs_scope with tabs.
Notation "x <- m ;; k" := (bind m (λ x, k))
  (at level 100, m at next level, right associativity) : tabs_scope.
Notation "m ;; k" := (bind m (λ _, k))
  (at level 100, right associativity) : tabs_scope.

Definition result {A} (r : A * TabsCommon * list Call) : A := r.1.1.
Definition after {A} (r : A * TabsCommon * list Call) : TabsCommon := r.1.2.
Definition calls {A} (r : A * TabsCommon * list Call) : list Call := r.2.

(** [ScreenUtils.isRootScreen]; its argument is [undefined] ([None]) when
    it is handed the top of an empty stack. *)
Class ScreenUtils : Type := { isRootScreen : option ScreenId → bool }.

(** The entries of [Constants.Views] the component reads. *)
Class Constants : Type := {
  Views_Default : ScreenId;
  Views_DefaultTab : Z;
  Views_Search : ScreenId;
}.

(** What [SearchManager] and [Preferences] answer when a search comes in. *)
Record SearchManager : Type := mkSearchManager {
  numberOfSearchListeners : nat;
  getHighestPrioritySearchListeners : list (option SearchListener);
  getDefaultSearchListener : option SearchListener;
}.

Section Component.

Context `{ScreenUtils} `{Constants}.

Local Open Scope tabs_scope.

(** The component as constructed, with the stack as the module declares it. *)
Definition initial : TabsCommon :=
  {| screenStack := [Views_Default];
     currentTab := Views_DefaultTab;
     _ignoreNextSearch := false |}.

(** [screenStack[screenStack.length - 1]] *)
Definition stackTop (s : TabsCommon) : option ScreenId := last (screenStack s).

(** [screenStack.pop()], [screenStack.push(x)] and [screenStack = [x]] *)
Definition stack_pop (s : TabsCommon) : TabsCommon :=
  {| screenStack := removelast (screenStack s);
     currentTab := currentTab s;
     _ignoreNextSearch := _ignoreNextSearch s |}.

Definition stack_push (x : ScreenId) (s : TabsCommon) : TabsCommon :=
  {| screenStack := screenStack s ++ [x];
     currentTab := currentTab s;
     _ignoreNextSearch := _ignoreNextSearch s |}.

Definition stack_reset (x : ScreenId) (s : TabsCommon) : TabsCommon :=
  {| screenStack := [x];
     currentTab := currentTab s;
     _ignoreNextSearch := _ignoreNextSearch s |}.

Definition set_ignoreNextSearch (b : bool) (s : TabsCommon) : TabsCommon :=
  {| screenStack := screenStack s;
     currentTab := currentTab s;
     _ignoreNextSearch := b |}.

Definition setState_currentTab (tab : Z) (s : TabsCommon) : TabsCommon :=
  {| screenStack := screenStack s;
     currentTab := tab;
     _ignoreNextSearch := _ignoreNextSearch s |}.

Definition _showBackButton (show : bool) : M unit :=
  call (NavBar_setState_showBackButton show).

Definition _changeTabs (tab : Z) : M unit :=
  call SearchManager_resumeAllSearchListeners ;;
  modify (set_ignoreNextSearch true) ;;
  _showBackButton false ;;
  call NavBar_clearSearch ;;
  call (Navigator_resetTo (SNum tab)) ;;
  call LayoutAnimation_easeInEaseOut ;;
  modify (setState_currentTab tab) ;;
  modify (stack_reset (SNum tab)).

Definition _getCurrentScreen : M ScreenId :=
  gets (λ s, match stackTop s with
             | Some top => top
             | None => SNum 0
             end).

Definition getCurrentTab : M Z := gets currentTab.

Definition _navigateBack : M bool :=
  top <- gets stackTop ;;
  if negb (isRootScreen top) then
    call Navigator_pop ;;
    modify stack_pop ;;
    top' <- gets stackTop ;;
    (if isRootScreen top' then _showBackButton false else ret tt) ;;
    ret true
  else ret false.

Definition _navigateForward (screenId : ScreenId) (data : jsval) : M unit :=
  current <- _getCurrentScreen ;;
  if bool_decide (current = screenId) then ret tt
  else
    current' <- _getCurrentScreen ;;
    (if isRootScreen (Some current') then _showBackButton true else ret tt) ;;
    call (Navigator_push screenId data) ;;
    modify (stack_push screenId).

Definition _searchAll (searchTerms : option string) : M unit :=
  current <- _getCurrentScreen ;;
  match searchTerms with
  | Some terms =>
      if negb (bool_decide (current = Views_Search))
         && (0 <? Z.of_nat (String.length terms))
      then _navigateForward Views_Search (JStr terms)
      else ret tt
  | None => ret tt
  end.

(** [listener.onSearch(searchTerms)] *)
Definition listener_onSearch (listener : SearchListener)
    (searchTerms : option string) : M unit :=
  call (onSearch listener searchTerms) ;;
  match listener with
  | TabsSearchAll => _searchAll searchTerms
  | Listener _ => ret tt
  end.

(** The loop of [_onSearch] over the listeners it was handed. *)
Fixpoint notify (searchListeners : list (option SearchListener))
    (searchTerms : option string) : M unit :=
  match searchListeners with
  | [] => ret tt
  | l :: rest =>
      (match l with
       | Some listener => listener_onSearch listener searchTerms
       | None => ret tt
       end) ;;
      notify rest searchTerms
  end.

Definition _onSearch (sm : SearchManager) (alwaysSearchAll : bool)
    (searchTerms : option string) : M unit :=
  ignore <- gets _ignoreNextSearch ;;
  if ignore then modify (set_ignoreNextSearch false)
  else if (0 <? numberOfSearchListeners sm)%nat && negb alwaysSearchAll then
    notify (getHighestPrioritySearchListeners sm) searchTerms
  else
    match getDefaultSearchListener sm with
    | Some searchListener => listener_onSearch searchListener searchTerms
    | None => ret tt
    end.

(** Who was handed which search terms: the [onSearch] calls among the calls
    made, in order. *)
Definition deliveries (cs : list Call)
    : list (SearchListener * option string) :=
  omap (λ c, match c with
             | onSearch listener searchTerms => Some (listener, searchTerms)
             | _ => None
             end) cs.

(** [_navigateForward(screenId, d1)] at once followed by
    [_navigateForward(screenId, d2)]. *)
Definition navigateForward_twice (screenId : ScreenId) (d1 d2 : jsval) : M unit :=
  _navigateForward screenId d1 ;;
  _navigateForward screenId d2.

(** [n] presses of the back button in a row; the answers, oldest first. *)
Fixpoint navigateBack_times (n : nat) : M (list bool) :=
  match n with
  | O => ret []
  | S n' =>
      b <- _navigateBack ;;
      bs <- navigateBack_times n' ;;
      ret (b :: bs)
  end.

(** Back and forward navigation in any order. *)
Inductive NavEvent : Type :=
  | Back
  | Forward (screenId : ScreenId) (data : jsval).

Definition navigate (e : NavEvent) : M unit :=
  match e with
  | Back => _navigateBack ;; ret tt
  | Forward screenId data => _navigateForward screenId data
  end.

Fixpoint navigate_all (es : list NavEvent) : M unit :=
  match es with
  | [] => ret tt
  | e :: rest => navigate e ;; navigate_all rest
  end.

(** The stack holds a root screen somewhere. *)
Definition holdsRoot (s : TabsCommon) : Prop :=
  ∃ x, x ∈ screenStack s ∧ isRootScreen (Some x) = true.

End Component.

(** *** The entry points, in any order

    What the rendered tree wires to the component: a press on a tab
    ([_changeTabs]), the back button of the navigation bar and of the
    device ([_navigateBack]), the scenes ([_changeTabs],
    [_navigateForward]), the search field ([_onSearch]) and the default
    search listener ([_searchAll]). *)

Section EntryPoints.

Context `{ScreenUtils} `{Constants}.

Local Open Scope tabs_scope.

Inductive Event : Type :=
  | E_changeTabs (tab : Z)
  | E_navigateBack
  | E_navigateForward (screenId : ScreenId) (data : jsval)
  | E_searchAll (searchTerms : option string)
  | E_onSearch (sm : SearchManager) (alwaysSearchAll : bool)
      (searchTerms : option string).

Definition handle (e : Event) : M unit :=
  match e with
  | E_changeTabs tab => _changeTabs tab
  | E_navigateBack => _navigateBack ;; ret tt
  | E_navigateForward screenId data => _navigateForward screenId data
  | E_searchAll searchTerms => _searchAll searchTerms
  | E_onSearch sm alwaysSearchAll searchTerms =>
      _onSearch sm alwaysSearchAll searchTerms
  end.

Fixpoint handle_all (es : list Event) : M unit :=
  match es with
  | [] => ret tt
  | e :: rest => handle e ;; handle_all rest
  end.

(** Every tab switched to is a root screen. *)
Definition toRootTab (e : Event) : Prop :=
  match e with
  | E_changeTabs tab => isRootScreen (Some (SNum tab)) = true
  | _ => True
  end.

(** What a list of screen ids becomes when the requests made of the
    navigator are applied to it in order: [push] appends the id, [pop]
    drops the last one, [resetTo] leaves the one id. *)
Definition navigatorStep (routes : list ScreenId) (c : Call) : list ScreenId :=
  match c with
  | Navigator_push id _ => routes ++ [id]
  | Navigator_pop => removelast routes
  | Navigator_resetTo id => [id]
  | _ => routes
  end.

Definition navigatorRoutes (cs : list Call) (routes : list ScreenId)
    : list ScreenId :=
  fold_left navigatorStep cs routes.

(** The [showBackButton] the navigation bar was last told, [shown] if it
    was told none. *)
Definition backButtonStep (shown : bool) (c : Call) : bool :=
  match c with
  | NavBar_setState_showBackButton show => show
  | _ => shown
  end.

Definition backButton (cs : list Call) (shown : bool) : bool :=
  fold_left backButtonStep cs shown.

(** No screen sits directly on top of itself. *)
Definition noRepeat (stack : list ScreenId) : Prop :=
  ∀ i x y, stack !! i = Some x → stack !! S i = Some y → x ≠ y.

(** What a run [r] of a method from the state [s] did to the stack, with
    what it asked of the navigator and told the back button: nothing; a
    push of a screen that was not showing; a pop of a screen that is not a
    root screen. *)
Definition kept (s : TabsCommon) (r : unit * TabsCommon * list Call) : Prop :=
  screenStack (after r) = screenStack s
  ∧ currentTab (after r) = currentTab s
  ∧ (∀ routes, navigatorRoutes (calls r) routes = routes)
  ∧ (∀ shown, backButton (calls r) shown = shown).

Definition pushed (X : ScreenId) (s : TabsCommon)
    (r : unit * TabsCommon * list Call) : Prop :=
  result (_getCurrentScreen s) ≠ X
  ∧ screenStack (after r) = screenStack s ++ [X]
  ∧ currentTab (after r) = currentTab s
  ∧ (∀ routes, navigatorRoutes (calls r) routes = routes ++ [X])
  ∧ (∀ shown, backButton (calls r) shown
              = if isRootScreen (Some (result (_getCurrentScreen s)))
                then true else shown).

Definition popped (s : TabsCommon) (r : unit * TabsCommon * list Call) : Prop :=
  isRootScreen (stackTop s) = false
  ∧ screenStack (after r) = removelast (screenStack s)
  ∧ currentTab (after r) = currentTab s
  ∧ (∀ routes, navigatorRoutes (calls r) routes = removelast routes)
  ∧ (∀ shown, backButton (calls r) shown
              = if isRootScreen (last (removelast (screenStack s)))
                then false else shown).

End EntryPoints.

(** *** The tab bar of [render] *)

(** [Constants.Tabs], the home screens in [Constants.Views] that
    [tabScreens] reads, [Platform.OS], and the [indicatorWidth] computed
    from the window width when the module loads. *)
Class TabBar : Type := {
  Constants_Tabs : list string;
  Views_Find_Home : Z;
  Views_Schedule_Home : Z;
  Views_Discover_Home : Z;
  Views_Settings_Home : Z;
  Platform_OS : string;
  indicatorWidth : Z;
}.

(** [Constants.Colors.charcoalGrey] and [Constants.Colors.garnet] *)
Inductive Color : Type :=
  | charcoalGrey
  | garnet.

(** What [render] puts in a [TouchableOpacity] of the tab bar: its [key],
    the argument bound to [_changeTabs] for [onPress], and the [color],
    [name] and [size] of its icon. A name that a table does not hold reads as
    [undefined] ([None]). *)
Record TabButton : Type := mkTabButton {
  key : string;
  onPress : option Z;
  color : Color;
  name : option string;
  size : Z;
}.

(** Size of the icons within the tabs. *)
Definition tabIconSize : Z := 30.

Section Render.

Context `{TabBar}.

Definition tabIcons : gmap string string :=
  if String.eqb Platform_OS "android" then
    <["find" := "directions"]> (<["schedule" := "event"]>
      (<["discover" := "near-me"]> (<["settings" := "settings"]> ∅)))
  else
    <["find" := "ios-navigate"]> (<["schedule" := "ios-calendar-outline"]>
      (<["discover" := "ios-compass"]> (<["settings" := "ios-settings"]> ∅))).

Definition tabScreens : gmap string Z :=
  <["find" := Views_Find_Home]> (<["schedule" := Views_Schedule_Home]>
    (<["discover" := Views_Discover_Home]>
      (<["settings" := Views_Settings_Home]> ∅))).

(** The loop of [render] from index [i] on, over the tab names left. *)
Fixpoint render_loop (names : list string) (i : Z) (current : Z)
    (indicatorLeft : Z) : list TabButton * Z :=
  match names with
  | [] => ([], indicatorLeft)
  | tab :: rest =>
      let selected := bool_decide (Some current = tabScreens !! tab) in
      let tabColor := if selected then garnet else charcoalGrey in
      let indicatorLeft :=
        if selected then indicatorWidth * i else indicatorLeft in
      let '(tabs, final) := render_loop rest (i + 1) current indicatorLeft in
      ({| key := tab; onPress := tabScreens !! tab;
          color := tabColor; name := tabIcons !! tab;
          size := tabIconSize |} :: tabs, final)
  end.

(** The tab bar of [render]: the buttons and the [left] of the indicator. *)
Definition render (s : TabsCommon) : list TabButton * Z :=
  render_loop Constants_Tabs 0 (currentTab s) 0.

End Render.

End Tabs.

(** ** The running application *)

Module App.

Import Tabs.


Section Events.

Context `{ScreenUtils} `{Constants}.

(** The parsed [assets/json/CoreTranslations] file. *)
Variable CoreTranslations : jsval.




End Events.

End App.

(** ** Sample collaborators

    A configuration of the external modules, in the shape the application
    gives them: four tabs whose home screens are the root screens, and a
    search screen. *)

Module Sample.

Import Tabs.

Definition Find_Home : Z := 100.
Definition Schedule_Home : Z := 200.
Definition Discover_Home : Z := 300.
Definition Settings_Home : Z := 400.
Definition Search : Z := 500.

#[export] Instance screenUtils : ScreenUtils :=
  {| isRootScreen := λ screenId,
       bool_decide (screenId = Some (SNum Find_Home))
       || bool_decide (screenId = Some (SNum Schedule_Home))
       || bool_decide (screenId = Some (SNum Discover_Home))
       || bool_decide (screenId = Some (SNum Settings_Home)) |}.

#[export] Instance constants : Constants :=
  {| Views_Default := SNum Find_Home;
     Views_DefaultTab := Find_Home;
     Views_Search := SNum Search |}.

(** A registry with two listeners in the highest tier and a default one. *)
Definition searchManager : SearchManager :=
  {| numberOfSearchListeners := 3;
     getHighestPrioritySearchListeners := [Some (Listener 1); Some (Listener 2)];
     getDefaultSearchListener := Some (Listener 0) |}.

(** The registry once the component has mounted and before any other
    module registers a listener: the default listener is the component's
    own. *)
Definition mounted : SearchManager :=
  {| numberOfSearchListeners := 0;
     getHighestPrioritySearchListeners := [];
     getDefaultSearchListener := Some TabsSearchAll |}.

(** A registry with no listener but the default one. *)
Definition onlyDefault : SearchManager :=
  {| numberOfSearchListeners := 0;
     getHighestPrioritySearchListeners := [];
     getDefaultSearchListener := Some (Listener 0) |}.

(** The component on the home screen of the first tab, and one search
    screen further. *)
Definition atHome : TabsCommon :=
  {| screenStack := [SNum Find_Home];
     currentTab := Find_Home;
     _ignoreNextSearch := false |}.

Definition onSearchScreen : TabsCommon :=
  {| screenStack := [SNum Find_Home; SNum Search];
     currentTab := Find_Home;
     _ignoreNextSearch := false |}.


(** The component with nothing on its stack. *)
Definition emptied : TabsCommon :=
  {| screenStack := [];
     currentTab := Find_Home;
     _ignoreNextSearch := false |}.

(** A translations file whose English section has no [app_name] and that
    has no French section. *)
Definition sparseTranslations : jsval :=
  JObj {["en" := JObj ∅]}.

(** [{type: 'SET_HEADER_TITLE', title: 'Find'}] and
    [{type: 'HEADER_SHOW_BACK', shouldShowBack: true}] *)
Definition findTitleAction : Header.Action :=
  <["type" := JStr "SET_HEADER_TITLE"]> {["title" := JStr "Find"]}.

Definition showBackAction : Header.Action :=
  <["type" := JStr "HEADER_SHOW_BACK"]> {["shouldShowBack" := JBool true]}.

#[export] Instance tabBar : TabBar :=
  {| Constants_Tabs := ["find"; "schedule"; "discover"; "settings"];
     Views_Find_Home := Find_Home;
     Views_Schedule_Home := Schedule_Home;
     Views_Discover_Home := Discover_Home;
     Views_Settings_Home := Settings_Home;
     Platform_OS := "android";
     indicatorWidth := 90 |}.

(** A header state whose counter has reached [2^53]. *)
Definition saturatedState : Header.State :=
  {| Header.backNavigation := maxExact;
     Header.title := Header.defaultTitle Header.sampleTranslations;
     Header.shouldShowBack := JBool true;
     Header.shouldShowSearch := JBool false |}.

(** [{type: 'NAVIGATE_BACK'}], [{type: 'SET_HEADER_TITLE', title: ''}] and
    [{type: 'UNKNOWN'}] *)
Definition navigateBackAction : Header.Action :=
  {["type" := JStr "NAVIGATE_BACK"]}.

Definition emptyTitleAction : Header.Action :=
  <["type" := JStr "SET_HEADER_TITLE"]> {["title" := JStr ""]}.

Definition unknownAction : Header.Action :=
  {["type" := JStr "UNKNOWN"]}.

End Sample.

(** * Properties *)

(** ** Values *)

Lemma strict_eq_str_true v lit : strict_eq_str v lit = true ↔ v = JStr lit.
Proof.
  destruct v; simpl; try (split; [discriminate | congruence]).
  rewrite String.eqb_eq. split; congruence.
Qed.

Lemma strict_eq_str_false v lit : strict_eq_str v lit = false ↔ v ≠ JStr lit.
Proof.
  rewrite <- strict_eq_str_true.
  destruct (strict_eq_str v lit); split; congruence.
Qed.

Lemma js_or_truthy a b : truthy a = true → js_or a b = a.
Proof. unfold js_or. by intros ->. Qed.

Lemma js_or_falsy a b : truthy a = false → js_or a b = b.
Proof. unfold js_or. by intros ->. Qed.

Lemma js_add1_exact n : - maxExact ≤ n < maxExact → js_add1 n = n + 1.
Proof.
  intros Hn. unfold js_add1, round_double.
  destruct (Z.leb_spec (Z.abs (n + 1)) maxExact) as [_ | Hgt]; [done |].
  unfold maxExact in *. lia.
Qed.

Lemma js_add1_maxExact : js_add1 maxExact = maxExact.
Proof. reflexivity. Qed.

Lemma js_add1_saturating n :
  - maxExact ≤ n ≤ maxExact → js_add1 n = Z.min (n + 1) maxExact.
Proof.
  intros Hn. destruct (decide (n = maxExact)) as [-> | Hne].
  - reflexivity.
  - rewrite js_add1_exact by lia. lia.
Qed.

#[global] Arguments js_add1 : simpl never.

(** ** The header reducer *)

Section HeaderProperties.

Import Header.

Variable CoreTranslations : jsval.

Local Abbreviation defaultTitle := (Header.defaultTitle CoreTranslations).
Local Abbreviation initialState := (Header.initialState CoreTranslations).
Local Abbreviation header := (Header.header CoreTranslations).
Local Abbreviation reduce_all := (Header.reduce_all CoreTranslations).
Local Abbreviation header_any := (Header.header_any CoreTranslations).

Lemma header_NAVIGATE_BACK state action :
  field action "type" = JStr "NAVIGATE_BACK" →
  header state action =
    let state := default initialState state in
    {| backNavigation := js_add1 (backNavigation state);
       title := title state;
       shouldShowBack := shouldShowBack state;
       shouldShowSearch := shouldShowSearch state |}.
Proof. intros Ht. unfold Header.header. by rewrite Ht. Qed.

Lemma header_SET_HEADER_TITLE state action :
  field action "type" = JStr "SET_HEADER_TITLE" →
  header state action =
    let state := default initialState state in
    {| backNavigation := backNavigation state;
       title := js_or (field action "title") defaultTitle;
       shouldShowBack := shouldShowBack state;
       shouldShowSearch := shouldShowSearch state |}.
Proof. intros Ht. unfold Header.header. by rewrite Ht. Qed.

Lemma header_default state action :
  ¬ recognized (field action "type") →
  header state action = default initialState state.
Proof.
  intros Hn. unfold Header.header.
  repeat match goal with
  | |- context [strict_eq_str ?v ?lit] =>
      let E := fresh in
      destruct (strict_eq_str v lit) eqn:E;
      [ apply strict_eq_str_true in E; exfalso; apply Hn;
        unfold recognized; tauto | ]
  end.
  reflexivity.
Qed.

Lemma header_keeps_counter state action :
  strict_eq_str (field action "type") "NAVIGATE_BACK" = false →
  backNavigation (header state action)
  = backNavigation (default initialState state).
Proof.
  intros Hb. unfold Header.header. rewrite Hb.
  by repeat destruct (strict_eq_str _ _).
Qed.

(** The counter over a list of actions: each [NAVIGATE_BACK] adds one
    until [2^53] is reached, where the counter stays. *)
Lemma reduce_all_counter s actions :
  - maxExact ≤ backNavigation s ≤ maxExact →
  backNavigation (reduce_all s actions)
  = Z.min (backNavigation s + Z.of_nat (backCount actions)) maxExact.
Proof.
  revert s. induction actions as [| a rest IH]; intros s Hs.
  - cbn. lia.
  - unfold Header.reduce_all in *. cbn [fold_left backCount].
    destruct (strict_eq_str (field a "type") "NAVIGATE_BACK") eqn:E.
    + apply strict_eq_str_true in E.
      assert (Hc : backNavigation (header (Some s) a)
                   = Z.min (backNavigation s + 1) maxExact).
      { rewrite (header_NAVIGATE_BACK _ _ E). cbn.
        by apply js_add1_saturating. }
      rewrite IH; rewrite Hc; lia.
    + pose proof (header_keeps_counter (Some s) a E) as Hc. cbn in Hc.
      rewrite IH; rewrite Hc; [done | lia].
Qed.

Lemma backCount_all actions :
  Forall (λ a, field a "type" = JStr "NAVIGATE_BACK") actions →
  backCount actions = length actions.
Proof.
  induction 1 as [| a rest Ha _ IH]; [done |].
  cbn. by rewrite Ha, IH.
Qed.

Lemma header_any_object state (fields : Action) :
  header_any state (JObj fields) = Returns (header state fields).
Proof. reflexivity. Qed.

(** C4, as the code has it. An action whose [type] is none of the four
    recognized kinds, and that is not [null] or [undefined] itself, leaves
    every header state as it is. The reducer throws, reading
    [action.type], exactly when the action is [null] or [undefined]; on
    every other value, whatever its shape, it returns a state. *)
Theorem header_unknown_action_identity (S : State) (action : jsval) :
  (action ≠ JNull → action ≠ JUndefined →
   ¬ recognized (prop action "type") →
   header_any (Some S) action = Returns S)
  ∧ (∀ (state : option State) (any : jsval),
       header_any state any = Throws_TypeError
       ↔ any = JNull ∨ any = JUndefined)
  ∧ (∀ (state : option State) (any : jsval),
       any ≠ JNull → any ≠ JUndefined →
       ∃ S', header_any state any = Returns S').
Proof.
  split; [| split].
  - intros Hnull Hundef Hn.
    destruct action; try done; cbn; f_equal; by apply header_default.
  - intros state any. destruct any; cbn; split;
      try discriminate; try tauto; intros [E | E]; discriminate E.
  - intros state any Hnull Hundef. destruct any; try done; by eexists.
Qed.

(** C5, as the code has it. From the initial state, [N] actions of type
    [NAVIGATE_BACK] leave the counter at [N] as long as [N] is at most
    [2^53], where the counter stays from then on. One such action makes
    the counter of a state the number that [counter + 1] is, which is one
    more for a counter from [-2^53] to below [2^53], and always keeps the
    title and both visibility flags. *)
Theorem header_back_counter (N : nat) (actions : list Action)
    (S : State) (action : Action) :
  (length actions = N →
   Forall (λ a, field a "type" = JStr "NAVIGATE_BACK") actions →
   backNavigation (reduce_all initialState actions)
   = Z.min (Z.of_nat N) maxExact
   ∧ (Z.of_nat N ≤ maxExact →
      backNavigation (reduce_all initialState actions) = Z.of_nat N))
  ∧ (field action "type" = JStr "NAVIGATE_BACK" →
     backNavigation (header (Some S) action) = js_add1 (backNavigation S)
     ∧ (- maxExact ≤ backNavigation S < maxExact →
        backNavigation (header (Some S) action) = backNavigation S + 1)
     ∧ title (header (Some S) action) = title S
     ∧ shouldShowBack (header (Some S) action) = shouldShowBack S
     ∧ shouldShowSearch (header (Some S) action) = shouldShowSearch S).
Proof.
  split.
  - intros <- Hall.
    rewrite reduce_all_counter by (cbn; unfold maxExact; lia).
    rewrite (backCount_all _ Hall). cbn. split; lia.
  - intros Ht. rewrite (header_NAVIGATE_BACK _ _ Ht). cbn.
    split; [done |]. split; [apply js_add1_exact | done].
Qed.

(** C6, as the code has it. A [SET_HEADER_TITLE] action sets the title to
    [action.title] when that value is truthy and to the default title
    otherwise (missing, [null], or another falsy value such as the empty
    string); the counter and both flags are kept. *)
Theorem header_set_title (state : option State) (action : Action) :
  field action "type" = JStr "SET_HEADER_TITLE" →
  title (header state action)
  = (if truthy (field action "title") then field action "title"
     else defaultTitle)
  ∧ backNavigation (header state action)
    = backNavigation (default initialState state)
  ∧ shouldShowBack (header state action)
    = shouldShowBack (default initialState state)
  ∧ shouldShowSearch (header state action)
    = shouldShowSearch (default initialState state).
Proof.
  intros Ht. by rewrite (header_SET_HEADER_TITLE _ _ Ht).
Qed.

(** C9. A [SET_HEADER_TITLE] action whose title is present, neither [null]
    nor [undefined], but falsy, resets the title to the default one; so does
    every action of that type whose title is falsy, missing ones included. *)
Theorem header_falsy_title_resets (S : State) (action : Action) (t : jsval) :
  field action "type" = JStr "SET_HEADER_TITLE" →
  (action !! "title" = Some t → t ≠ JNull → t ≠ JUndefined →
   truthy t = false →
   title (header (Some S) action) = defaultTitle
   ∧ title (header (Some S) action) ≠ t)
  ∧ (truthy (field action "title") = false →
     title (header (Some S) action) = defaultTitle).
Proof.
  intros Ht. rewrite (header_SET_HEADER_TITLE _ _ Ht). cbn. split.
  - intros Hl _ _ Hf. unfold field. rewrite Hl. cbn.
    rewrite (js_or_falsy _ _ Hf). split; [done |].
    intros <-. discriminate Hf.
  - intros Hf. by rewrite (js_or_falsy _ _ Hf).
Qed.

(** C10. With no state handed in, the reducer works on the initial state:
    counter 0, the default title, both flags false. *)
Theorem header_absent_state (action : Action) :
  header None action = header (Some initialState) action
  ∧ initialState
    = {| backNavigation := 0; title := defaultTitle;
         shouldShowBack := JBool false; shouldShowSearch := JBool false |}.
Proof. split; reflexivity. Qed.

End HeaderProperties.

(** *** The reducer on the sample translations *)

Section HeaderExamples.

Import Header.

Local Abbreviation ct := Header.sampleTranslations.

Lemma header_unknown_action_identity_witness :
  ¬ recognized (prop (JObj Sample.unknownAction) "type")
  ∧ header_any ct (Some (initialState ct)) (JObj Sample.unknownAction)
    = Returns (initialState ct)
  ∧ header_any ct (Some (initialState ct)) (JStr "UNKNOWN")
    = Returns (initialState ct).
Proof.
  assert (Hn : ¬ recognized (prop (JObj Sample.unknownAction) "type")).
  { vm_compute. intros [E | [E | [E | E]]]; discriminate E. }
  assert (Hs : ¬ recognized (prop (JStr "UNKNOWN") "type")).
  { vm_compute. intros [E | [E | [E | E]]]; discriminate E. }
  split; [exact Hn |]. split.
  - refine (proj1 (header_unknown_action_identity ct (initialState ct)
                     (JObj Sample.unknownAction)) _ _ Hn); discriminate.
  - refine (proj1 (header_unknown_action_identity ct (initialState ct)
                     (JStr "UNKNOWN")) _ _ Hs); discriminate.
Defined.

(** C4, as stated, fails on an action that is [null]: the reducer throws
    instead of returning a state. *)
Lemma header_throws_on_null :
  header_any ct (Some (initialState ct)) JNull = Throws_TypeError
  ∧ header_any ct (Some (initialState ct)) JNull ≠ Returns (initialState ct)
  ∧ header_any ct None JUndefined = Throws_TypeError.
Proof. split; [reflexivity |]. split; [discriminate | reflexivity]. Defined.

Lemma header_back_counter_witness :
  backNavigation
    (reduce_all ct (initialState ct) (replicate 3 Sample.navigateBackAction))
  = 3
  ∧ - maxExact ≤ backNavigation (initialState ct) < maxExact
  ∧ backNavigation (header ct (Some (initialState ct)) Sample.navigateBackAction)
    = 1.
Proof.
  pose proof (header_back_counter ct 3 (replicate 3 Sample.navigateBackAction)
                (initialState ct) Sample.navigateBackAction) as [Hn H1].
  assert (Hr : - maxExact ≤ backNavigation (initialState ct) < maxExact)
    by (vm_compute; split; [discriminate | reflexivity]).
  split; [| split; [exact Hr |]].
  - refine (proj2 (Hn eq_refl _) _).
    + repeat constructor.
    + vm_compute. discriminate.
  - exact (proj1 (proj2 (H1 eq_refl)) Hr).
Defined.

(** C5, as stated, fails on a state whose counter is [2^53]: a
    [NAVIGATE_BACK] action leaves the counter where it is, not one
    higher. *)
Lemma header_back_counter_stops :
  field Sample.navigateBackAction "type" = JStr "NAVIGATE_BACK"
  ∧ backNavigation Sample.saturatedState = 9007199254740992
  ∧ backNavigation (header ct (Some Sample.saturatedState) Sample.navigateBackAction)
    = 9007199254740992
  ∧ backNavigation (header ct (Some Sample.saturatedState) Sample.navigateBackAction)
    ≠ backNavigation Sample.saturatedState + 1.
Proof.
  split; [reflexivity |]. split; [reflexivity |].
  split; [vm_compute; reflexivity | vm_compute; discriminate].
Defined.

Lemma header_set_title_witness :
  field Sample.emptyTitleAction "type" = JStr "SET_HEADER_TITLE"
  ∧ title (header ct None Sample.emptyTitleAction) = defaultTitle ct.
Proof.
  split; [reflexivity |].
  exact (proj1 (header_set_title ct None Sample.emptyTitleAction eq_refl)).
Defined.

Lemma header_falsy_title_resets_witness :
  Sample.emptyTitleAction !! "title" = Some (JStr "")
  ∧ truthy (JStr "") = false
  ∧ title (header ct (Some (initialState ct)) Sample.emptyTitleAction)
    = defaultTitle ct.
Proof.
  split; [reflexivity |]. split; [reflexivity |].
  refine (proj1 (proj1 (header_falsy_title_resets ct (initialState ct)
                          Sample.emptyTitleAction (JStr "") eq_refl)
                   eq_refl _ _ eq_refl)); discriminate.
Defined.

(** C6, as stated, fails on [{type: 'SET_HEADER_TITLE', title: ''}]: the
    title is present and is neither [null] nor [undefined], yet the state
    that comes back does not carry it. *)
Lemma header_set_title_empty_string :
  field Sample.emptyTitleAction "type" = JStr "SET_HEADER_TITLE"
  ∧ Sample.emptyTitleAction !! "title" = Some (JStr "")
  ∧ JStr "" ≠ JNull
  ∧ JStr "" ≠ JUndefined
  ∧ title (header ct (Some (initialState ct)) Sample.emptyTitleAction)
    ≠ JStr "".
Proof.
  split; [reflexivity |]. split; [reflexivity |].
  split; [discriminate |]. split; [discriminate |].
  vm_compute. discriminate.
Defined.

End HeaderExamples.

(** ** The navigation stack *)

Section TabsProperties.

Import Tabs.

Context `{ScreenUtils} `{Constants}.

(** The screen [_getCurrentScreen] answers in a given state. *)
Local Abbreviation currentScreen s := (result (_getCurrentScreen s)).

Ltac run :=
  unfold _navigateBack, _navigateForward, navigateForward_twice, _changeTabs,
    _getCurrentScreen, _showBackButton, _onSearch,
    bind, gets, modify, call, ret, result, after, calls;
  cbn [fst snd].

Lemma navigateBack_at_root s :
  isRootScreen (stackTop s) = true → _navigateBack s = (false, s, []).
Proof. intros Hr. run. by rewrite Hr. Qed.

Lemma navigateBack_below_root s :
  isRootScreen (stackTop s) = false →
  _navigateBack s
  = (true, stack_pop s,
     Navigator_pop ::
       (if isRootScreen (stackTop (stack_pop s))
        then [NavBar_setState_showBackButton false] else [])).
Proof.
  intros Hr. run. rewrite Hr. cbn [negb].
  by destruct (isRootScreen (stackTop (stack_pop s))).
Qed.

Lemma navigateForward_showing s screenId data :
  currentScreen s = screenId → _navigateForward screenId data s = (tt, s, []).
Proof.
  run. intros Hc. rewrite Hc.
  by rewrite bool_decide_eq_true_2.
Qed.

Lemma navigateForward_pushes s screenId data :
  currentScreen s ≠ screenId →
  _navigateForward screenId data s
  = (tt, stack_push screenId s,
     (if isRootScreen (Some (currentScreen s))
      then [NavBar_setState_showBackButton true] else [])
     ++ [Navigator_push screenId data]).
Proof.
  run. intros Hc. rewrite bool_decide_eq_false_2 by exact Hc.
  by destruct (isRootScreen _).
Qed.

Lemma currentScreen_push s screenId :
  currentScreen (stack_push screenId s) = screenId.
Proof.
  run. unfold stackTop, stack_push. cbn. by rewrite last_snoc.
Qed.

Lemma currentScreen_after_forward s screenId data :
  currentScreen (after (_navigateForward screenId data s)) = screenId.
Proof.
  destruct (decide (currentScreen s = screenId)) as [Hc | Hc].
  - by rewrite (navigateForward_showing _ _ _ Hc).
  - rewrite (navigateForward_pushes _ _ _ Hc). apply currentScreen_push.
Qed.

Lemma navigateForward_twice_eq s screenId d1 d2 :
  navigateForward_twice screenId d1 d2 s = _navigateForward screenId d1 s.
Proof.
  unfold navigateForward_twice, bind.
  pose proof (currentScreen_after_forward s screenId d1) as Hc.
  destruct (_navigateForward screenId d1 s) as [[[] s1] c1] eqn:E1.
  unfold after in Hc. cbn in Hc.
  rewrite (navigateForward_showing _ _ d2 Hc).
  by rewrite app_nil_r.
Qed.

Lemma stackTop_currentScreen s :
  screenStack s ≠ [] → stackTop s = Some (currentScreen s).
Proof.
  run. unfold stackTop. intros Hne.
  destruct (last (screenStack s)) eqn:Hl; [done |].
  by apply last_None in Hl.
Qed.

Lemma navigateBack_times_at_root s n :
  isRootScreen (stackTop s) = true →
  navigateBack_times n s = (replicate n false, s, []).
Proof.
  intros Hr. induction n as [| n IH]; [done |].
  cbn [navigateBack_times]. unfold bind at 1.
  rewrite (navigateBack_at_root _ Hr).
  unfold bind. by rewrite IH.
Qed.

Lemma changeTabs_eq tab s :
  _changeTabs tab s
  = (tt,
     {| screenStack := [SNum tab]; currentTab := tab;
        _ignoreNextSearch := true |},
     [SearchManager_resumeAllSearchListeners;
      NavBar_setState_showBackButton false;
      NavBar_clearSearch;
      Navigator_resetTo (SNum tab);
      LayoutAnimation_easeInEaseOut]).
Proof. reflexivity. Qed.


Lemma elem_of_removelast {A} (l : list A) (x y : A) :
  x ∈ l → last l = Some y → x ≠ y → x ∈ removelast l.
Proof.
  destruct (decide (l = [])) as [-> | Hne]; [by intros ?%elem_of_nil |].
  rewrite (app_removelast_last y Hne) at 1 2.
  rewrite last_snoc. intros Hin [= Hy] Hxy.
  apply elem_of_app in Hin as [Hin | Hin]; [done |].
  apply list_elem_of_singleton in Hin. congruence.
Qed.

Lemma holdsRoot_back s : holdsRoot s → holdsRoot (after (_navigateBack s)).
Proof.
  intros (x & Hin & Hx).
  destruct (isRootScreen (stackTop s)) eqn:Hr.
  - rewrite (navigateBack_at_root _ Hr). by exists x.
  - rewrite (navigateBack_below_root _ Hr). exists x. split; [| done].
    unfold after, stack_pop. cbn.
    unfold stackTop in Hr.
    destruct (last (screenStack s)) as [y |] eqn:Hl.
    + apply (elem_of_removelast _ _ y Hin Hl). intros ->. congruence.
    + apply last_None in Hl. rewrite Hl in Hin. by apply elem_of_nil in Hin.
Qed.

Lemma holdsRoot_forward s screenId data :
  holdsRoot s → holdsRoot (after (_navigateForward screenId data s)).
Proof.
  intros (x & Hin & Hx).
  destruct (decide (currentScreen s = screenId)) as [Hc | Hc].
  - rewrite (navigateForward_showing _ _ _ Hc). by exists x.
  - rewrite (navigateForward_pushes _ _ _ Hc). exists x. split; [| done].
    unfold after, stack_push. cbn. apply elem_of_app. by left.
Qed.

Lemma holdsRoot_navigate_all es s :
  holdsRoot s → holdsRoot (after (navigate_all es s)).
Proof.
  revert s. induction es as [| e es IH]; intros s Hs; [done |].
  cbn [navigate_all]. unfold bind.
  assert (He : holdsRoot (after (navigate e s))).
  { destruct e as [| screenId data]; cbn [navigate].
    - pose proof (holdsRoot_back s Hs) as Hb. unfold bind, ret.
      by destruct (_navigateBack s) as [[b s1] c1].
    - by apply holdsRoot_forward. }
  destruct (navigate e s) as [[[] s1] c1]. specialize (IH s1 He).
  by destruct (navigate_all es s1) as [[[] s2] c2].
Qed.

(** Whatever the order of back and forward navigation after a reset to a
    root screen, the stack keeps at least one entry. *)
Lemma stack_never_empties (s : TabsCommon) (root : ScreenId) (es : list NavEvent) :
  screenStack s = [root] → isRootScreen (Some root) = true →
  (1 ≤ length (screenStack (after (navigate_all es s))))%nat.
Proof.
  intros Hs Hr.
  assert (Hh : holdsRoot s).
  { exists root. rewrite Hs. split; [apply list_elem_of_singleton; done | done]. }
  destruct (holdsRoot_navigate_all es s Hh) as (x & Hin & _).
  destruct (screenStack (after (navigate_all es s)));
    [by apply elem_of_nil in Hin | cbn; lia].
Qed.

(** C2. From a stack reset to a single root screen, any number of back
    navigations in a row all answer [false] and leave the component as it
    was, so the stack keeps its one entry; a tab switch resets the stack to
    one entry; and wherever the top of the stack (the current screen of a
    stack that is not empty) is a root screen, back navigation answers
    [false], changes nothing and calls nothing. *)
Theorem navigateBack_stack_floor (s : TabsCommon) (root : ScreenId) (n : nat) :
  screenStack s = [root] → isRootScreen (Some root) = true →
  result (navigateBack_times n s) = replicate n false
  ∧ after (navigateBack_times n s) = s
  ∧ (1 ≤ length (screenStack (after (navigateBack_times n s))))%nat
  ∧ (∀ tab s0, screenStack (after (_changeTabs tab s0)) = [SNum tab])
  ∧ (∀ s', isRootScreen (stackTop s') = true →
           _navigateBack s' = (false, s', []))
  ∧ (∀ s', screenStack s' ≠ [] →
           isRootScreen (Some (currentScreen s')) = true →
           _navigateBack s' = (false, s', [])).
Proof.
  intros Hs Hr.
  assert (Htop : isRootScreen (stackTop s) = true).
  { unfold stackTop. by rewrite Hs. }
  rewrite (navigateBack_times_at_root _ n Htop). unfold result, after. cbn.
  repeat split; try done.
  - rewrite Hs. cbn. lia.
  - intros s'. apply navigateBack_at_root.
  - intros s' Hne Hc. apply navigateBack_at_root.
    by rewrite (stackTop_currentScreen _ Hne).
Qed.

(** C3, as the code has it. [_navigateForward(X)] while [X] is showing
    changes nothing; a second [_navigateForward(X)] in a row is always
    turned down, whatever its payload; the two calls together add exactly
    one entry, [X], when [X] was not showing before them, and none when it
    was. *)
Theorem navigateForward_duplicate_guard (s : TabsCommon) (X : ScreenId)
    (d1 d2 : jsval) :
  (currentScreen s = X → _navigateForward X d1 s = (tt, s, []))
  ∧ _navigateForward X d2 (after (_navigateForward X d1 s))
    = (tt, after (_navigateForward X d1 s), [])
  ∧ (currentScreen s ≠ X →
     screenStack (after (navigateForward_twice X d1 d2 s)) = screenStack s ++ [X]
     ∧ length (screenStack (after (navigateForward_twice X d1 d2 s)))
       = S (length (screenStack s)))
  ∧ (currentScreen s = X →
     screenStack (after (navigateForward_twice X d1 d2 s)) = screenStack s).
Proof.
  split; [apply navigateForward_showing |].
  split; [apply navigateForward_showing, currentScreen_after_forward |].
  rewrite navigateForward_twice_eq. split; intros Hc.
  - rewrite (navigateForward_pushes _ _ _ Hc). unfold after, stack_push. cbn.
    split; [done |]. rewrite length_app. cbn. lia.
  - by rewrite (navigateForward_showing _ _ _ Hc).
Qed.

End TabsProperties.

(** ** Back events and the header store *)

Section AppProperties.

Import Tabs App.

Context `{ScreenUtils} `{Constants}.

Variable CoreTranslations : jsval.


End AppProperties.

(** ** Search *)

Section SearchProperties.

Import Tabs.

Context `{ScreenUtils} `{Constants}.

Lemma onSearch_ignored sm alwaysSearchAll searchTerms s :
  _ignoreNextSearch s = true →
  _onSearch sm alwaysSearchAll searchTerms s
  = (tt, set_ignoreNextSearch false s, []).
Proof. unfold _onSearch, bind, gets, modify. by intros ->. Qed.

End SearchProperties.

(** ** The component with the sample collaborators *)

Section TabsExamples.

Import Tabs App Sample.

(** The scenario of the specification: from the home screen, forward to the
    search screen and back. *)
Example forward_then_back :
  screenStack (after (_navigateForward (SNum Search) (JStr "pizza") atHome))
  = [SNum Find_Home; SNum Search]
  ∧ _navigateBack onSearchScreen
    = (true, atHome, [Navigator_pop; NavBar_setState_showBackButton false]).
Proof. split; reflexivity. Qed.

Lemma navigateBack_stack_floor_witness :
  screenStack (after (_changeTabs Schedule_Home onSearchScreen))
  = [SNum Schedule_Home]
  ∧ isRootScreen (Some (SNum Schedule_Home)) = true
  ∧ result (navigateBack_times 3 (after (_changeTabs Schedule_Home onSearchScreen)))
    = [false; false; false]
  ∧ (1 ≤ length (screenStack
                   (after (navigateBack_times 3
                             (after (_changeTabs Schedule_Home onSearchScreen))))))%nat.
Proof.
  assert (Hs : screenStack (after (_changeTabs Schedule_Home onSearchScreen))
               = [SNum Schedule_Home]) by reflexivity.
  assert (Hr : isRootScreen (Some (SNum Schedule_Home)) = true)
    by (vm_compute; reflexivity).
  destruct (navigateBack_stack_floor
              (after (_changeTabs Schedule_Home onSearchScreen))
              (SNum Schedule_Home) 3 Hs Hr)
    as (Hres & _ & Hlen & _).
  split; [exact Hs |]. split; [exact Hr |]. split; [exact Hres | exact Hlen].
Defined.

Lemma navigateForward_duplicate_guard_witness :
  result (_getCurrentScreen atHome) ≠ SNum Search
  ∧ screenStack
      (after (navigateForward_twice (SNum Search) (JStr "pizza") (JStr "cafe") atHome))
    = [SNum Find_Home; SNum Search].
Proof.
  assert (Hc : result (_getCurrentScreen atHome) ≠ SNum Search)
    by (vm_compute; discriminate).
  split; [exact Hc |].
  exact (proj1 (proj1 (proj2 (proj2
    (navigateForward_duplicate_guard atHome (SNum Search)
       (JStr "pizza") (JStr "cafe")))) Hc)).
Defined.

(** C3, as stated, fails on the home screen: [_navigateForward] of the
    screen that is showing, twice in a row, adds no entry to the stack. *)
Lemma navigateForward_twice_showing :
  length (screenStack
            (after (navigateForward_twice (SNum Find_Home) JUndefined
                      (JStr "pizza") atHome)))
  ≠ S (length (screenStack atHome))
  ∧ screenStack
      (after (navigateForward_twice (SNum Find_Home) JUndefined
                (JStr "pizza") atHome))
    = screenStack atHome.
Proof. split; [vm_compute; discriminate | reflexivity]. Defined.

End TabsExamples.

(** * Further properties of the code *)

(** ** The reducer over lists of actions *)

Section HeaderSequences.

Import Header.

Variable CoreTranslations : jsval.

Local Abbreviation defaultTitle := (Header.defaultTitle CoreTranslations).
Local Abbreviation initialState := (Header.initialState CoreTranslations).
Local Abbreviation header := (Header.header CoreTranslations).
Local Abbreviation reduce_all := (Header.reduce_all CoreTranslations).

(** Splits the [switch] of the reducer on the type of [a], naming the kind
    in each branch. *)
Ltac switch_on a :=
  let t := constr:(field a "type") in
  destruct (strict_eq_str t "NAVIGATE_BACK") eqn:?;
  [| destruct (strict_eq_str t "SET_HEADER_TITLE") eqn:?;
     [| destruct (strict_eq_str t "HEADER_SHOW_BACK") eqn:?;
        [| destruct (strict_eq_str t "HEADER_SHOW_SEARCH") eqn:? ]]];
  repeat match goal with
  | E : strict_eq_str _ _ = true |- _ => apply strict_eq_str_true in E
  end.

Lemma defaultTitle_truthy : truthy defaultTitle = true.
Proof. reflexivity. Qed.

Lemma header_keeps_title_truthy state action :
  truthy (title (default initialState state)) = true →
  truthy (title (header state action)) = true.
Proof.
  intros Ht. unfold Header.header.
  switch_on action; cbn; try done.
  unfold js_or. by destruct (truthy (field action "title")) eqn:E.
Qed.

(** X1. Whatever the actions, a counter that starts from [-2^53] to
    [2^53] ends at its start plus the number of [NAVIGATE_BACK] actions
    among them, or at [2^53] if that is less; no action makes it
    smaller. *)
Theorem header_counts_back_actions (s : State) (actions : list Action) :
  - maxExact ≤ backNavigation s ≤ maxExact →
  backNavigation (reduce_all s actions)
  = Z.min (backNavigation s + Z.of_nat (backCount actions)) maxExact
  ∧ backNavigation s ≤ backNavigation (reduce_all s actions)
  ∧ (backNavigation s + Z.of_nat (backCount actions) ≤ maxExact →
     backNavigation (reduce_all s actions)
     = backNavigation s + Z.of_nat (backCount actions)).
Proof.
  intros Hs. rewrite (reduce_all_counter CoreTranslations s actions Hs).
  repeat split; lia.
Qed.

(** X2. From the initial state, no list of actions leaves a falsy title:
    the header always has a title to show. *)
Theorem header_title_never_falsy (actions : list Action) :
  truthy (title (reduce_all initialState actions)) = true.
Proof.
  assert (Hgen : ∀ s, truthy (title s) = true →
                      truthy (title (reduce_all s actions)) = true).
  { induction actions as [| a rest IH]; intros s Hs; [done |].
    unfold Header.reduce_all in *. cbn [fold_left].
    apply IH. by apply (header_keeps_title_truthy (Some s)). }
  apply Hgen, defaultTitle_truthy.
Qed.

(** X3. Of two actions in a row of the same setting kind (title, back
    button, search field) only the second counts: the state is the one the
    second alone gives. *)
Theorem header_last_write_wins (state : option State) (a1 a2 : Action)
    (kind : string) :
  kind ∈ ["SET_HEADER_TITLE"; "HEADER_SHOW_BACK"; "HEADER_SHOW_SEARCH"] →
  field a1 "type" = JStr kind →
  field a2 "type" = JStr kind →
  header (Some (header state a1)) a2 = header state a2.
Proof.
  intros Hk H1 H2. unfold Header.header. rewrite H1, H2.
  repeat (apply elem_of_cons in Hk as [-> | Hk]; [reflexivity |]).
  by apply elem_of_nil in Hk.
Qed.

(** X4. Two actions whose types differ can be reduced in either order: the
    kinds work on different fields. *)
Theorem header_actions_commute (state : option State) (a1 a2 : Action) :
  field a1 "type" ≠ field a2 "type" →
  header (Some (header state a1)) a2 = header (Some (header state a2)) a1.
Proof.
  intros Hne. unfold Header.header.
  switch_on a1; switch_on a2; cbn; try reflexivity; congruence.
Qed.

(** X5. The names of the default title. A language whose section the
    translations lack (or that is falsy there) gets the built-in name; a
    language whose section is there gets the [app_name] of the section as
    it is, which is [undefined] when the section has none. *)
Theorem defaultTitle_names :
  (truthy (prop CoreTranslations "en") = false →
   prop defaultTitle "name_en" = JStr "Campus Guide")
  ∧ (truthy (prop CoreTranslations "fr") = false →
     prop defaultTitle "name_fr" = JStr "Guide de campus")
  ∧ (truthy (prop CoreTranslations "en") = true →
     prop defaultTitle "name_en" = prop (prop CoreTranslations "en") "app_name")
  ∧ (truthy (prop CoreTranslations "fr") = true →
     prop defaultTitle "name_fr" = prop (prop CoreTranslations "fr") "app_name")
  ∧ (∀ section : gmap string jsval,
       prop CoreTranslations "en" = JObj section →
       section !! "app_name" = None →
       prop defaultTitle "name_en" = JUndefined).
Proof.
  assert (Hobj : ∀ k, truthy (prop CoreTranslations k) = true →
                      truthy CoreTranslations = true).
  { intros k. by destruct CoreTranslations. }
  assert (Hen : prop defaultTitle "name_en"
                = if truthy (prop CoreTranslations "en")
                  then prop (prop CoreTranslations "en") "app_name"
                  else JStr "Campus Guide").
  { unfold Header.defaultTitle, prop at 1, field. rewrite lookup_insert_eq. cbn.
    destruct (truthy (prop CoreTranslations "en")) eqn:E.
    - by rewrite (Hobj _ E).
    - by rewrite andb_false_r. }
  assert (Hfr : prop defaultTitle "name_fr"
                = if truthy (prop CoreTranslations "fr")
                  then prop (prop CoreTranslations "fr") "app_name"
                  else JStr "Guide de campus").
  { unfold Header.defaultTitle, prop at 1, field.
    rewrite lookup_insert_ne by done. rewrite lookup_insert_eq. cbn.
    destruct (truthy (prop CoreTranslations "fr")) eqn:E.
    - by rewrite (Hobj _ E).
    - by rewrite andb_false_r. }
  rewrite Hen, Hfr. repeat split.
  - by intros ->.
  - by intros ->.
  - by intros ->.
  - by intros ->.
  - intros section Hs Hn. rewrite Hs. cbn. unfold field. by rewrite Hn.
Qed.

End HeaderSequences.

(** ** The entry points of the component, in any order *)

Section EntryPointProperties.

Import Tabs.

Context `{ScreenUtils} `{Constants}.

Local Abbreviation currentScreen s := (result (_getCurrentScreen s)).

Lemma searchAll_eq searchTerms s :
  _searchAll searchTerms s
  = match searchTerms with
    | Some terms =>
        if negb (bool_decide (currentScreen s = Views_Search))
           && negb (String.eqb terms "")
        then _navigateForward Views_Search (JStr terms) s
        else (tt, s, [])
    | None => (tt, s, [])
    end.
Proof.
  unfold _searchAll, bind at 1. unfold _getCurrentScreen at 1, gets.
  unfold result, _getCurrentScreen, gets. cbn [fst].
  destruct searchTerms as [terms |]; [| done].
  assert (Hlen : (0 <? Z.of_nat (String.length terms))
                 = negb (String.eqb terms "")) by (by destruct terms).
  rewrite Hlen.
  destruct (negb _ && negb _); [| done].
  by destruct (_navigateForward _ _ s) as [[[] s1] c1].
Qed.

Lemma handle_back_eq s :
  handle E_navigateBack s
  = (tt, after (_navigateBack s), calls (_navigateBack s)).
Proof.
  cbn [handle]. unfold bind, ret, after, calls.
  destruct (_navigateBack s) as [[b s1] c1]. cbn. by rewrite app_nil_r.
Qed.

Lemma handle_all_cons e es s :
  handle_all (e :: es) s
  = (tt, after (handle_all es (after (handle e s))),
     calls (handle e s) ++ calls (handle_all es (after (handle e s)))).
Proof.
  cbn [handle_all]. unfold bind, after, calls.
  destruct (handle e s) as [[[] s1] c1]. cbn.
  by destruct (handle_all es s1) as [[[] s2] c2].
Qed.

Lemma after_handle_all_cons e es s :
  after (handle_all (e :: es) s) = after (handle_all es (after (handle e s))).
Proof. by rewrite handle_all_cons. Qed.

Lemma calls_handle_all_cons e es s :
  calls (handle_all (e :: es) s)
  = calls (handle e s) ++ calls (handle_all es (after (handle e s))).
Proof. by rewrite handle_all_cons. Qed.

Lemma handle_all_app es1 es2 s :
  handle_all (es1 ++ es2) s
  = (tt, after (handle_all es2 (after (handle_all es1 s))),
     calls (handle_all es1 s) ++ calls (handle_all es2 (after (handle_all es1 s)))).
Proof.
  revert s. induction es1 as [| e es1 IH]; intros s.
  - cbn. unfold ret, after, calls. cbn.
    by destruct (handle_all es2 s) as [[[] s2] c2].
  - rewrite <- app_comm_cons, !handle_all_cons, IH.
    unfold after, calls. cbn. by rewrite app_assoc.
Qed.

(** An invariant of the component that every entry point keeps is kept by
    any sequence of them. *)
Lemma handle_all_invariant (P : TabsCommon → Prop) (Q : Event → Prop) :
  (∀ e s, Q e → P s → P (after (handle e s))) →
  ∀ es s, Forall Q es → P s → P (after (handle_all es s)).
Proof.
  intros Hstep es. induction es as [| e es IH]; intros s Hq Hs; [done |].
  apply Forall_cons in Hq as [He Hq].
  rewrite handle_all_cons. unfold after at 1. cbn.
  by apply IH, Hstep.
Qed.

Lemma navigatorRoutes_app cs1 cs2 routes :
  navigatorRoutes (cs1 ++ cs2) routes
  = navigatorRoutes cs2 (navigatorRoutes cs1 routes).
Proof. apply fold_left_app. Qed.

Lemma backButton_app cs1 cs2 shown :
  backButton (cs1 ++ cs2) shown = backButton cs2 (backButton cs1 shown).
Proof. apply fold_left_app. Qed.

Lemma deliveries_app cs1 cs2 :
  deliveries (cs1 ++ cs2) = deliveries cs1 ++ deliveries cs2.
Proof. apply omap_app. Qed.

Lemma deliveries_onSearch listener searchTerms cs :
  deliveries (onSearch listener searchTerms :: cs)
  = (listener, searchTerms) :: deliveries cs.
Proof. reflexivity. Qed.

Lemma stack_pop_push X s : stack_pop (stack_push X s) = s.
Proof.
  destruct s as [stack tab flag]. unfold stack_pop, stack_push. cbn.
  by rewrite removelast_last.
Qed.

Lemma currentScreen_last s X :
  currentScreen s ≠ X → last (screenStack s) ≠ Some X.
Proof.
  unfold result, _getCurrentScreen, gets, stackTop. cbn.
  intros Hc Hl. by rewrite Hl in Hc.
Qed.

Lemma currentScreen_stack s s' :
  screenStack s' = screenStack s → currentScreen s' = currentScreen s.
Proof.
  unfold result, _getCurrentScreen, gets, stackTop. cbn. by intros ->.
Qed.

(** One method after another. *)
Lemma seq_eq (m1 m2 : M unit) s :
  bind m1 (λ _, m2) s
  = (tt, after (m2 (after (m1 s))), calls (m1 s) ++ calls (m2 (after (m1 s)))).
Proof.
  unfold bind, after, calls. destruct (m1 s) as [[[] s1] c1]. cbn.
  by destruct (m2 s1) as [[[] s2] c2].
Qed.

Lemma after_seq (m1 m2 : M unit) s :
  after (bind m1 (λ _, m2) s) = after (m2 (after (m1 s))).
Proof. by rewrite seq_eq. Qed.

Lemma calls_seq (m1 m2 : M unit) s :
  calls (bind m1 (λ _, m2) s) = calls (m1 s) ++ calls (m2 (after (m1 s))).
Proof. by rewrite seq_eq. Qed.

Lemma kept_nothing s : kept s (tt, s, []).
Proof. by repeat split. Qed.

Lemma kept_call c s :
  (∀ routes, navigatorStep routes c = routes) →
  (∀ shown, backButtonStep shown c = shown) →
  kept s (tt, s, [c]).
Proof. intros Hn Hb. repeat split; intros; cbn; auto. Qed.

Lemma kept_then (m1 m2 : M unit) s :
  kept s (m1 s) → kept (after (m1 s)) (m2 (after (m1 s))) →
  kept s (bind m1 (λ _, m2) s).
Proof.
  intros (Hs1 & Ht1 & Hn1 & Hb1) (Hs2 & Ht2 & Hn2 & Hb2).
  unfold kept. rewrite after_seq, calls_seq.
  repeat split.
  - by rewrite Hs2.
  - by rewrite Ht2.
  - intros routes. by rewrite navigatorRoutes_app, Hn1, Hn2.
  - intros shown. by rewrite backButton_app, Hb1, Hb2.
Qed.

Lemma kept_then_pushed (m1 m2 : M unit) X s :
  kept s (m1 s) → pushed X (after (m1 s)) (m2 (after (m1 s))) →
  pushed X s (bind m1 (λ _, m2) s).
Proof.
  intros (Hs1 & Ht1 & Hn1 & Hb1) (Hc2 & Hs2 & Ht2 & Hn2 & Hb2).
  pose proof (currentScreen_stack _ _ Hs1) as Hc.
  unfold pushed. rewrite after_seq, calls_seq.
  repeat split.
  - by rewrite <- Hc.
  - by rewrite Hs2, Hs1.
  - by rewrite Ht2.
  - intros routes. by rewrite navigatorRoutes_app, Hn1, Hn2.
  - intros shown. by rewrite backButton_app, Hb1, Hb2, Hc.
Qed.

Lemma pushed_then_kept (m1 m2 : M unit) X s :
  pushed X s (m1 s) → kept (after (m1 s)) (m2 (after (m1 s))) →
  pushed X s (bind m1 (λ _, m2) s).
Proof.
  intros (Hc1 & Hs1 & Ht1 & Hn1 & Hb1) (Hs2 & Ht2 & Hn2 & Hb2).
  unfold pushed. rewrite after_seq, calls_seq.
  repeat split.
  - done.
  - by rewrite Hs2.
  - by rewrite Ht2.
  - intros routes. by rewrite navigatorRoutes_app, Hn1, Hn2.
  - intros shown. by rewrite backButton_app, Hb1, Hb2.
Qed.

Lemma pushed_showing X s r : pushed X s r → currentScreen (after r) = X.
Proof.
  intros (_ & Hs & _). unfold result, _getCurrentScreen, gets, stackTop.
  cbn. by rewrite Hs, last_snoc.
Qed.

Lemma navigateForward_effect X data s :
  kept s (_navigateForward X data s) ∨ pushed X s (_navigateForward X data s).
Proof.
  destruct (decide (currentScreen s = X)) as [Hc | Hc].
  - left. rewrite (navigateForward_showing _ _ _ Hc). apply kept_nothing.
  - right. rewrite (navigateForward_pushes _ _ _ Hc).
    unfold pushed, after, calls. cbn [fst snd].
    split; [done |]. split; [done |]. split; [done |]. split.
    + intros routes. rewrite navigatorRoutes_app.
      by destruct (isRootScreen (Some (currentScreen s))).
    + intros shown. rewrite backButton_app.
      by destruct (isRootScreen (Some (currentScreen s))).
Qed.

Lemma navigateForward_deliveries X data s :
  deliveries (calls (_navigateForward X data s)) = [].
Proof.
  destruct (decide (currentScreen s = X)) as [Hc | Hc].
  - by rewrite (navigateForward_showing _ _ _ Hc).
  - rewrite (navigateForward_pushes _ _ _ Hc). unfold calls. cbn [snd].
    by destruct (isRootScreen (Some (currentScreen s))).
Qed.

Lemma navigateForward_flag X data s :
  _ignoreNextSearch (after (_navigateForward X data s)) = _ignoreNextSearch s.
Proof.
  destruct (decide (currentScreen s = X)) as [Hc | Hc].
  - by rewrite (navigateForward_showing _ _ _ Hc).
  - by rewrite (navigateForward_pushes _ _ _ Hc).
Qed.

Lemma searchAll_effect searchTerms s :
  (kept s (_searchAll searchTerms s)
   ∨ pushed Views_Search s (_searchAll searchTerms s))
  ∧ deliveries (calls (_searchAll searchTerms s)) = []
  ∧ _ignoreNextSearch (after (_searchAll searchTerms s)) = _ignoreNextSearch s.
Proof.
  rewrite searchAll_eq.
  destruct searchTerms as [terms |];
    [| split; [left; apply kept_nothing | done]].
  destruct (negb _ && negb _);
    [| split; [left; apply kept_nothing | done]].
  split; [apply navigateForward_effect |].
  split; [apply navigateForward_deliveries | apply navigateForward_flag].
Qed.

Lemma listener_onSearch_eq listener searchTerms s :
  listener_onSearch listener searchTerms s
  = match listener with
    | TabsSearchAll =>
        (tt, after (_searchAll searchTerms s),
         onSearch TabsSearchAll searchTerms :: calls (_searchAll searchTerms s))
    | Listener _ => (tt, s, [onSearch listener searchTerms])
    end.
Proof.
  unfold listener_onSearch. rewrite seq_eq.
  destruct listener; reflexivity.
Qed.

Lemma listener_onSearch_effect listener searchTerms s :
  (kept s (listener_onSearch listener searchTerms s)
   ∨ pushed Views_Search s (listener_onSearch listener searchTerms s))
  ∧ deliveries (calls (listener_onSearch listener searchTerms s))
    = [(listener, searchTerms)]
  ∧ _ignoreNextSearch (after (listener_onSearch listener searchTerms s))
    = _ignoreNextSearch s.
Proof.
  assert (Hcall : kept s (call (onSearch listener searchTerms) s))
    by (by apply kept_call).
  destruct listener as [handle |].
  - rewrite listener_onSearch_eq. split; [by left | done].
  - destruct (searchAll_effect searchTerms s) as (Heff & Hd & Hf).
    split; [| split].
    + unfold listener_onSearch.
      destruct Heff as [Hk | Hp];
        [left; by apply kept_then | right; by apply kept_then_pushed].
    + rewrite listener_onSearch_eq. unfold calls at 1. cbn [snd].
      by rewrite deliveries_onSearch, Hd.
    + by rewrite listener_onSearch_eq.
Qed.

(** The loop of [_onSearch]: each listener that is there is handed the
    terms, once and in order; the stack is kept, or the search screen is
    pushed once, by the component's own listener. *)
Lemma notify_effect searchListeners searchTerms s :
  (kept s (notify searchListeners searchTerms s)
   ∨ pushed Views_Search s (notify searchListeners searchTerms s))
  ∧ deliveries (calls (notify searchListeners searchTerms s))
    = (λ l, (l, searchTerms)) <$> omap id searchListeners
  ∧ _ignoreNextSearch (after (notify searchListeners searchTerms s))
    = _ignoreNextSearch s.
Proof.
  revert s. induction searchListeners as [| l rest IH]; intros s.
  { split; [left; apply kept_nothing | done]. }
  cbn [notify].
  set (first := match l with
                | Some listener => listener_onSearch listener searchTerms
                | None => ret tt
                end).
  assert (Hfirst :
    (kept s (first s) ∨ pushed Views_Search s (first s))
    ∧ deliveries (calls (first s))
      = (λ l, (l, searchTerms)) <$> omap id [l]
    ∧ _ignoreNextSearch (after (first s)) = _ignoreNextSearch s).
  { subst first. destruct l as [listener |].
    - apply listener_onSearch_effect.
    - split; [left; apply kept_nothing | done]. }
  destruct Hfirst as (Heff1 & Hd1 & Hf1).
  destruct (IH (after (first s))) as (Heff2 & Hd2 & Hf2).
  split; [| split].
  - destruct Heff1 as [Hk1 | Hp1]; destruct Heff2 as [Hk2 | Hp2].
    + left. by apply kept_then.
    + right. by apply kept_then_pushed.
    + right. by apply pushed_then_kept.
    + exfalso. destruct Hp2 as [Hc2 _]. by rewrite (pushed_showing _ _ _ Hp1) in Hc2.
  - rewrite calls_seq, deliveries_app, Hd1, Hd2.
    change (l :: rest) with ([l] ++ rest). by rewrite omap_app, fmap_app.
  - rewrite after_seq. by rewrite Hf2.
Qed.

Lemma onSearch_listened sm alwaysSearchAll searchTerms s :
  _ignoreNextSearch s = false →
  _onSearch sm alwaysSearchAll searchTerms s
  = if (0 <? numberOfSearchListeners sm)%nat && negb alwaysSearchAll
    then notify (getHighestPrioritySearchListeners sm) searchTerms s
    else match getDefaultSearchListener sm with
         | Some searchListener => listener_onSearch searchListener searchTerms s
         | None => (tt, s, [])
         end.
Proof.
  unfold _onSearch, bind at 1, gets. intros ->.
  destruct (_ && _).
  - by destruct (notify _ _ s) as [[[] s1] c1].
  - destruct (getDefaultSearchListener sm) as [d |]; [| done].
    by destruct (listener_onSearch d searchTerms s) as [[[] s1] c1].
Qed.

(** A search that is not suppressed: who is handed the terms, what becomes
    of the stack, and the flag that stays clear. *)
Lemma onSearch_effect sm alwaysSearchAll searchTerms s :
  _ignoreNextSearch s = false →
  (kept s (_onSearch sm alwaysSearchAll searchTerms s)
   ∨ pushed Views_Search s (_onSearch sm alwaysSearchAll searchTerms s))
  ∧ deliveries (calls (_onSearch sm alwaysSearchAll searchTerms s))
    = (if (0 <? numberOfSearchListeners sm)%nat && negb alwaysSearchAll
       then (λ l, (l, searchTerms))
              <$> omap id (getHighestPrioritySearchListeners sm)
       else match getDefaultSearchListener sm with
            | Some searchListener => [(searchListener, searchTerms)]
            | None => []
            end)
  ∧ _ignoreNextSearch (after (_onSearch sm alwaysSearchAll searchTerms s))
    = false.
Proof.
  intros Hi. rewrite (onSearch_listened _ _ _ _ Hi).
  destruct (_ && _).
  - destruct (notify_effect (getHighestPrioritySearchListeners sm) searchTerms s)
      as (He & Hd & Hf).
    split; [exact He |]. split; [exact Hd | by rewrite Hf].
  - destruct (getDefaultSearchListener sm) as [d |].
    + destruct (listener_onSearch_effect d searchTerms s) as (He & Hd & Hf).
      split; [exact He |]. split; [exact Hd | by rewrite Hf].
    + split; [left; apply kept_nothing | done].
Qed.

(** The four things an entry point can do: leave the stack and the tab
    alone and ask nothing of the navigator or of the back button; push a
    screen that is not showing; pop a screen that is not a root screen;
    reset to a tab. *)
Lemma handle_cases e s :
  kept s (handle e s)
  ∨ (∃ X, pushed X s (handle e s))
  ∨ popped s (handle e s)
  ∨ (∃ tab,
       e = E_changeTabs tab
       ∧ handle e s
         = (tt,
            {| screenStack := [SNum tab]; currentTab := tab;
               _ignoreNextSearch := true |},
            [SearchManager_resumeAllSearchListeners;
             NavBar_setState_showBackButton false;
             NavBar_clearSearch;
             Navigator_resetTo (SNum tab);
             LayoutAnimation_easeInEaseOut])).
Proof.
  destruct e as [tab | | X data | searchTerms | sm alwaysSearchAll searchTerms].
  - right; right; right. by exists tab.
  - rewrite handle_back_eq.
    destruct (isRootScreen (stackTop s)) eqn:Hr.
    + left. rewrite (navigateBack_at_root _ Hr). apply kept_nothing.
    + right; right; left. rewrite (navigateBack_below_root _ Hr).
      unfold popped, after, calls. cbn [fst snd].
      split; [done |]. split; [done |]. split; [done |].
      unfold stackTop, stack_pop. cbn [screenStack].
      split; intros;
        by destruct (isRootScreen (last (removelast (screenStack s)))).
  - cbn [handle]. destruct (navigateForward_effect X data s) as [Hk | Hp];
      [by left | right; left; by exists X].
  - cbn [handle]. destruct (searchAll_effect searchTerms s) as ([Hk | Hp] & _);
      [by left | right; left; by exists Views_Search].
  - cbn [handle].
    destruct (_ignoreNextSearch s) eqn:Hi.
    + left. rewrite (onSearch_ignored _ _ _ _ Hi). by repeat split.
    + destruct (onSearch_effect sm alwaysSearchAll searchTerms s Hi)
        as ([Hk | Hp] & _);
        [by left | right; left; by exists Views_Search].
Qed.

Lemma lookup_removelast_Some {A} (l : list A) i x :
  removelast l !! i = Some x → l !! i = Some x.
Proof.
  destruct (decide (l = [])) as [-> | Hne]; [done |].
  intros Hi. rewrite (app_removelast_last x Hne).
  by apply lookup_app_l_Some.
Qed.

Lemma noRepeat_removelast stack : noRepeat stack → noRepeat (removelast stack).
Proof.
  intros Hn i x y Hx Hy.
  apply (Hn i); by apply lookup_removelast_Some.
Qed.

Lemma noRepeat_push stack X :
  noRepeat stack → last stack ≠ Some X → noRepeat (stack ++ [X]).
Proof.
  intros Hn Hl i x y Hx Hy.
  destruct (decide (S i < length stack)%nat) as [Hlt | Hge].
  - rewrite lookup_app_l in Hx by lia. rewrite lookup_app_l in Hy by lia.
    by apply (Hn i).
  - destruct (decide (S i = length stack)) as [Heq | Hneq].
    + rewrite lookup_app_l in Hx by lia.
      rewrite lookup_app_r in Hy by lia.
      replace (S i - length stack)%nat with 0%nat in Hy by lia.
      cbn in Hy. injection Hy as <-.
      intros ->. apply Hl. rewrite last_lookup.
      by replace (pred (length stack)) with i by lia.
    + apply lookup_lt_Some in Hy. rewrite length_app in Hy. cbn in Hy. lia.
Qed.

Lemma holdsRoot_nonempty s :
  holdsRoot s → stackTop s = Some (currentScreen s).
Proof.
  intros (x & Hin & _). apply stackTop_currentScreen.
  intros Hnil. rewrite Hnil in Hin. by apply elem_of_nil in Hin.
Qed.

Lemma holdsRoot_handle e s :
  toRootTab e → holdsRoot s → holdsRoot (after (handle e s)).
Proof.
  intros He Hs.
  destruct (handle_cases e s)
    as [(Hk & _) | [(X & _ & Hp & _) | [(Hr & Hp & _) | (tab & -> & ->)]]].
  - destruct Hs as (x & Hin & Hx). exists x. by rewrite Hk.
  - destruct Hs as (x & Hin & Hx). exists x. split; [| done].
    rewrite Hp. apply elem_of_app. by left.
  - pose proof (holdsRoot_back s Hs) as Hb.
    rewrite (navigateBack_below_root _ Hr) in Hb.
    destruct Hb as (x & Hin & Hx). exists x. by rewrite Hp.
  - exists (SNum tab). split; [| exact He].
    unfold after. cbn. by apply list_elem_of_singleton.
Qed.

(** X6. After any sequence of calls to the entry points, the screen stack
    is what the requests made of the navigator along the way (push, pop,
    resetTo) make of the stack at the start: the two are changed together,
    so a navigator that does as it is asked shows the stack. *)
Theorem screenStack_mirrors_navigator (es : list Event) (s : TabsCommon) :
  screenStack (after (handle_all es s))
  = navigatorRoutes (calls (handle_all es s)) (screenStack s).
Proof.
  revert s. induction es as [| e es IH]; intros s; [done |].
  rewrite after_handle_all_cons, calls_handle_all_cons.
  rewrite navigatorRoutes_app, IH. f_equal.
  destruct (handle_cases e s)
    as [(Hk & _ & Hn & _)
       | [(X & _ & Hp & _ & Hn & _)
         | [(_ & Hp & _ & Hn & _) | (tab & -> & ->)]]].
  - by rewrite Hn.
  - by rewrite Hn.
  - by rewrite Hn.
  - reflexivity.
Qed.

(** X7. If no screen sits directly on top of itself in the stack, none
    does after any sequence of calls to the entry points. *)
Theorem screenStack_never_repeats (es : list Event) (s : TabsCommon) :
  noRepeat (screenStack s) →
  noRepeat (screenStack (after (handle_all es s))).
Proof.
  intros Hs.
  apply (handle_all_invariant (λ s, noRepeat (screenStack s)) (λ _, True));
    [| by apply Forall_true | done].
  clear. intros e s _ Hs.
  destruct (handle_cases e s)
    as [(Hk & _) | [(X & Hc & Hp & _) | [(_ & Hp & _) | (tab & -> & ->)]]].
  - by rewrite Hk.
  - rewrite Hp. apply noRepeat_push; [done |].
    by apply currentScreen_last.
  - rewrite Hp. by apply noRepeat_removelast.
  - unfold after. cbn. intros i x y Hx Hy. by destruct i.
Qed.

(** X8. Within a tab, the stack up to a root screen is frozen: back,
    forward and search never change the entries from the bottom up to and
    including a root screen, whatever is done above it. *)
Theorem screenStack_frozen_below_root (es : list Event) (s : TabsCommon)
    (below : list ScreenId) (root : ScreenId) :
  isRootScreen (Some root) = true →
  (below ++ [root]) `prefix_of` screenStack s →
  Forall (λ e, ∀ tab, e ≠ E_changeTabs tab) es →
  (below ++ [root]) `prefix_of` screenStack (after (handle_all es s)).
Proof.
  intros Hroot Hpre Hes.
  apply (handle_all_invariant
           (λ s, (below ++ [root]) `prefix_of` screenStack s)
           (λ e, ∀ tab, e ≠ E_changeTabs tab)); [| done | done].
  clear s Hpre es Hes. intros e s He Hpre.
  destruct (handle_cases e s)
    as [(Hk & _) | [(X & Hc & Hp & _) | [(Hr & Hp & _) | (tab & -> & _)]]].
  - by rewrite Hk.
  - rewrite Hp. by apply prefix_app_r.
  - rewrite Hp. destruct Hpre as [above Hst].
    destruct (decide (above = [])) as [-> | Hne].
    + exfalso. unfold stackTop in Hr. rewrite Hst, app_nil_r, last_snoc in Hr.
      congruence.
    + rewrite Hst, removelast_app by done. by apply prefix_app_r.
  - by destruct (He tab).
Qed.

(** X9. Once the bottom of the stack is the current tab and that tab is a
    root screen, it stays so through any sequence of calls to the entry
    points in which every tab switched to is a root screen; the stack is
    then never empty. *)
Theorem screenStack_bottom_is_currentTab (es : list Event) (s : TabsCommon) :
  head (screenStack s) = Some (SNum (currentTab s)) →
  isRootScreen (Some (SNum (currentTab s))) = true →
  Forall toRootTab es →
  head (screenStack (after (handle_all es s)))
  = Some (SNum (currentTab (after (handle_all es s))))
  ∧ isRootScreen (Some (SNum (currentTab (after (handle_all es s))))) = true
  ∧ (1 ≤ length (screenStack (after (handle_all es s))))%nat.
Proof.
  intros Hhd Hroot Hes.
  pose (P := λ s, head (screenStack s) = Some (SNum (currentTab s))
                  ∧ isRootScreen (Some (SNum (currentTab s))) = true).
  assert (HP : P (after (handle_all es s))).
  { apply (handle_all_invariant P toRootTab); [| done | done].
    clear. intros e s He [Hhd Hroot]. unfold P.
    destruct (handle_cases e s)
      as [(Hk & Ht & _)
         | [(X & Hc & Hp & Ht & _)
           | [(Hr & Hp & Ht & _) | (tab & -> & ->)]]].
    - by rewrite Hk, Ht.
    - rewrite Hp, Ht. split; [| done].
      destruct (screenStack s); [done | exact Hhd].
    - rewrite Hp, Ht. split; [| done].
      destruct (screenStack s) as [| bottom [| next rest]] eqn:Hst; [done | |].
      + exfalso. unfold stackTop in Hr. rewrite Hst in Hr. cbn in *.
        congruence.
      + exact Hhd.
    - unfold after. cbn. by split. }
  destruct HP as [Hhd' Hroot']. repeat split; [done | done |].
  destruct (screenStack (after (handle_all es s))); [done | cbn; lia].
Qed.

(** X10. While the stack holds a root screen and every tab switched to is
    a root screen: if the back button is showing whenever the top of the
    stack is not a root screen, then the same is true after any sequence of
    calls to the entry points. A screen that back navigation can leave
    always comes with its back button. *)
Theorem backButton_follows_stack (es : list Event) (s : TabsCommon)
    (shown : bool) :
  holdsRoot s →
  (isRootScreen (stackTop s) = false → shown = true) →
  Forall toRootTab es →
  isRootScreen (stackTop (after (handle_all es s))) = false →
  backButton (calls (handle_all es s)) shown = true.
Proof.
  revert s shown. induction es as [| e es IH]; intros s shown Hh Hb Hes.
  { cbn. exact Hb. }
  apply Forall_cons in Hes as [He Hes].
  rewrite after_handle_all_cons, calls_handle_all_cons.
  rewrite backButton_app.
  apply IH; [by apply holdsRoot_handle | | done].
  pose proof (holdsRoot_nonempty s Hh) as Htop.
  destruct (handle_cases e s)
    as [(Hk & _ & _ & Hs)
       | [(X & Hc & Hp & _ & _ & Hs)
         | [(Hr & Hp & _ & _ & Hs) | (tab & -> & ->)]]].
  - rewrite Hs. unfold stackTop in *. by rewrite Hk.
  - rewrite Hs. intros _.
    destruct (isRootScreen (Some (currentScreen s))) eqn:Hc'; [done |].
    apply Hb. by rewrite Htop.
  - rewrite Hs. unfold stackTop. rewrite Hp.
    destruct (isRootScreen (last (removelast (screenStack s)))) eqn:Hr';
      [congruence |].
    intros _. by apply Hb.
  - unfold after, calls. cbn. unfold toRootTab in He.
    unfold stackTop. cbn. congruence.
Qed.

(** X11. Forward to a screen that is not showing and is not a root
    screen, then back: the back navigation is taken and the component is
    again what it was before the two. *)
Theorem navigateForward_navigateBack_round_trip (s : TabsCommon)
    (X : ScreenId) (data : jsval) :
  currentScreen s ≠ X →
  isRootScreen (Some X) = false →
  _navigateBack (after (_navigateForward X data s))
  = (true, s,
     Navigator_pop ::
       (if isRootScreen (stackTop s)
        then [NavBar_setState_showBackButton false] else [])).
Proof.
  intros Hc Hx. rewrite (navigateForward_pushes _ _ _ Hc).
  unfold after. cbn [fst snd].
  assert (Htop : stackTop (stack_push X s) = Some X).
  { unfold stackTop, stack_push. cbn. apply last_snoc. }
  rewrite navigateBack_below_root by (by rewrite Htop).
  by rewrite stack_pop_push.
Qed.

Lemma stack_pop_empty s : screenStack s = [] → stack_pop s = s.
Proof. destruct s as [stack tab flag]. cbn. by intros ->. Qed.

Lemma navigateBack_times_empty s n :
  screenStack s = [] → isRootScreen None = false →
  navigateBack_times n s = (replicate n true, s, replicate n Navigator_pop).
Proof.
  intros Hs Hu.
  assert (Hstep : _navigateBack s = (true, s, [Navigator_pop])).
  { rewrite navigateBack_below_root; unfold stackTop.
    - rewrite (stack_pop_empty _ Hs), Hs. cbn. by rewrite Hu.
    - rewrite Hs. exact Hu. }
  induction n as [| n IH]; [reflexivity |].
  cbn [navigateBack_times]. unfold bind at 1. rewrite Hstep.
  unfold bind. rewrite IH. cbn. by rewrite app_nil_r.
Qed.

(** X12. Where [isRootScreen] turns down [undefined]: on an empty stack
    every back navigation answers [true] and asks the navigator to pop,
    though the component stays as it is; and a switch to a tab that is not
    a root screen leads there, its first back navigation emptying the
    stack. *)
Theorem navigateBack_without_floor (s : TabsCommon) (tab : Z) (n : nat) :
  isRootScreen None = false →
  (screenStack s = [] →
   navigateBack_times n s = (replicate n true, s, replicate n Navigator_pop))
  ∧ (isRootScreen (Some (SNum tab)) = false →
     result (navigateBack_times (S n) (after (_changeTabs tab s)))
     = replicate (S n) true
     ∧ screenStack (after (navigateBack_times (S n) (after (_changeTabs tab s))))
       = []).
Proof.
  intros Hu. split; [intros Hs; by apply navigateBack_times_empty |].
  intros Ht.
  pose (s1 := {| screenStack := [SNum tab]; currentTab := tab;
                 _ignoreNextSearch := true |}).
  change (after (_changeTabs tab s)) with s1.
  assert (Hstep : _navigateBack s1 = (true, stack_pop s1, [Navigator_pop])).
  { rewrite navigateBack_below_root by exact Ht.
    unfold stackTop. cbn. by rewrite Hu. }
  pose proof (navigateBack_times_empty (stack_pop s1) n eq_refl Hu) as Hrest.
  cbn [navigateBack_times]. unfold bind. rewrite Hstep, Hrest.
  by split.
Qed.

(** X13. On an empty stack the current screen reads as [0], so screen [0]
    cannot be opened there, while any other screen is pushed. *)
Theorem navigateForward_on_empty_stack (s : TabsCommon) (X : ScreenId)
    (data : jsval) :
  screenStack s = [] →
  currentScreen s = SNum 0
  ∧ (X = SNum 0 → _navigateForward X data s = (tt, s, []))
  ∧ (X ≠ SNum 0 → screenStack (after (_navigateForward X data s)) = [X]).
Proof.
  intros Hs.
  assert (Hc : currentScreen s = SNum 0).
  { unfold result, _getCurrentScreen, gets, stackTop. cbn. by rewrite Hs. }
  split; [exact Hc |]. split.
  - intros ->. by apply navigateForward_showing.
  - intros Hx. rewrite navigateForward_pushes by (rewrite Hc; congruence).
    unfold after. cbn. by rewrite Hs.
Qed.

(** X14. [_searchAll] with terms that are [null] or empty does nothing.
    With other terms it ends on the search screen: it pushes the search
    screen with the terms as data when another screen is showing, and does
    nothing, dropping the terms, when the search screen is showing
    already. *)
Theorem searchAll_opens_search (searchTerms : option string) (s : TabsCommon) :
  (searchTerms = None ∨ searchTerms = Some "" →
   _searchAll searchTerms s = (tt, s, []))
  ∧ (∀ terms, searchTerms = Some terms → terms ≠ "" →
       currentScreen (after (_searchAll searchTerms s)) = Views_Search
       ∧ (currentScreen s = Views_Search →
          _searchAll searchTerms s = (tt, s, []))
       ∧ (currentScreen s ≠ Views_Search →
          screenStack (after (_searchAll searchTerms s))
          = screenStack s ++ [Views_Search]
          ∧ last (calls (_searchAll searchTerms s))
            = Some (Navigator_push Views_Search (JStr terms)))).
Proof.
  rewrite searchAll_eq. split.
  - intros [-> | ->]; [done |]. by rewrite andb_false_r.
  - intros terms -> Hne.
    assert (He : String.eqb terms "" = false) by (by apply String.eqb_neq).
    rewrite He. cbn [negb]. rewrite andb_true_r.
    destruct (decide (currentScreen s = Views_Search)) as [Hc | Hc].
    + rewrite bool_decide_eq_true_2 by done. cbn [negb].
      split; [done |]. split; [done |]. intros Hn. contradiction.
    + rewrite bool_decide_eq_false_2 by done. cbn [negb].
      split; [apply currentScreen_after_forward |].
      split; [by intros Hn |]. intros _.
      rewrite (navigateForward_pushes _ _ _ Hc). unfold after, calls.
      cbn [fst snd]. split; [done |]. apply last_snoc.
Qed.

Lemma handle_navigation_keeps_flag e s :
  match e with
  | E_changeTabs _ | E_onSearch _ _ _ => False
  | _ => True
  end →
  _ignoreNextSearch (after (handle e s)) = _ignoreNextSearch s.
Proof.
  assert (Hforward : ∀ X data,
    _ignoreNextSearch (after (_navigateForward X data s)) = _ignoreNextSearch s).
  { intros X data. destruct (decide (currentScreen s = X)) as [Hc | Hc].
    - by rewrite (navigateForward_showing _ _ _ Hc).
    - by rewrite (navigateForward_pushes _ _ _ Hc). }
  destruct e as [tab | | X data | searchTerms | sm alwaysSearchAll searchTerms];
    intros He; try done.
  - rewrite handle_back_eq. unfold after at 1. cbn [fst snd].
    destruct (isRootScreen (stackTop s)) eqn:Hr.
    + by rewrite (navigateBack_at_root _ Hr).
    + by rewrite (navigateBack_below_root _ Hr).
  - apply Hforward.
  - cbn [handle]. rewrite searchAll_eq.
    destruct searchTerms as [terms |]; [| done].
    destruct (negb _ && negb _); [apply Hforward | done].
Qed.

(** X18. Navigation leaves the suppression flag alone: back, forward and
    [_searchAll], in any number and order, keep [_ignoreNextSearch] as it
    is. So the search that follows a tab switch is swallowed even when the
    user has navigated in between. *)
Theorem ignoreNextSearch_survives_navigation (es : list Event)
    (s : TabsCommon) (tab : Z) (sm : SearchManager) (alwaysSearchAll : bool)
    (searchTerms : option string) :
  Forall (λ e, match e with
               | E_changeTabs _ | E_onSearch _ _ _ => False
               | _ => True
               end) es →
  _ignoreNextSearch (after (handle_all es s)) = _ignoreNextSearch s
  ∧ calls (_onSearch sm alwaysSearchAll searchTerms
             (after (handle_all (E_changeTabs tab :: es) s))) = [].
Proof.
  intros Hes.
  assert (Hflag : ∀ s, _ignoreNextSearch (after (handle_all es s))
                       = _ignoreNextSearch s).
  { clear s. intros s.
    apply (handle_all_invariant
             (λ s', _ignoreNextSearch s' = _ignoreNextSearch s) _
             (λ e s' He Hs',
                eq_trans (handle_navigation_keeps_flag e s' He) Hs')
             es s Hes eq_refl). }
  split; [apply Hflag |].
  rewrite after_handle_all_cons.
  by rewrite onSearch_ignored by (by rewrite Hflag).
Qed.

End EntryPointProperties.

(** ** Who a search is delivered to *)

Section SearchDelivery.

Import Tabs.

Context `{ScreenUtils} `{Constants}.

(** C7. A search that is not suppressed: with at least one registered
    listener and the always-search-all preference off, the terms are handed
    to each listener of the highest-priority list, once each and in order,
    and to no other; otherwise, with a default listener, to it once and to
    no other; otherwise nothing at all happens. A listener of another
    module leaves the component as it is; the component's own default
    listener goes on to [_searchAll]. *)
Theorem onSearch_delivery (sm : SearchManager) (alwaysSearchAll : bool)
    (searchTerms : option string) (s : TabsCommon) :
  _ignoreNextSearch s = false →
  ((0 < numberOfSearchListeners sm)%nat → alwaysSearchAll = false →
   deliveries (calls (_onSearch sm alwaysSearchAll searchTerms s))
   = (λ l, (l, searchTerms)) <$> omap id (getHighestPrioritySearchListeners sm))
  ∧ (numberOfSearchListeners sm = 0%nat ∨ alwaysSearchAll = true →
     ∀ defaultListener,
       getDefaultSearchListener sm = Some defaultListener →
       deliveries (calls (_onSearch sm alwaysSearchAll searchTerms s))
       = [(defaultListener, searchTerms)]
       ∧ (∀ handle, defaultListener = Listener handle →
            _onSearch sm alwaysSearchAll searchTerms s
            = (tt, s, [onSearch defaultListener searchTerms]))
       ∧ (defaultListener = TabsSearchAll →
          _onSearch sm alwaysSearchAll searchTerms s
          = (tt, after (_searchAll searchTerms s),
             onSearch TabsSearchAll searchTerms
               :: calls (_searchAll searchTerms s))))
  ∧ (numberOfSearchListeners sm = 0%nat ∨ alwaysSearchAll = true →
     getDefaultSearchListener sm = None →
     _onSearch sm alwaysSearchAll searchTerms s = (tt, s, [])).
Proof.
  intros Hi.
  destruct (onSearch_effect sm alwaysSearchAll searchTerms s Hi) as (_ & Hd & _).
  pose proof (onSearch_listened sm alwaysSearchAll searchTerms s Hi) as He.
  split; [| split].
  - intros Hn ->. apply Nat.ltb_lt in Hn. by rewrite Hn in Hd.
  - intros Hc d Hdef.
    assert (Hcond : (0 <? numberOfSearchListeners sm)%nat
                    && negb alwaysSearchAll = false).
    { destruct Hc as [-> | ->]; [done | by rewrite andb_false_r]. }
    rewrite Hcond, Hdef in Hd, He. split; [exact Hd |].
    rewrite He, listener_onSearch_eq. split.
    + by intros handle ->.
    + by intros ->.
  - intros Hc Hdef.
    assert (Hcond : (0 <? numberOfSearchListeners sm)%nat
                    && negb alwaysSearchAll = false).
    { destruct Hc as [-> | ->]; [done | by rewrite andb_false_r]. }
    by rewrite Hcond, Hdef in He.
Qed.

(** C8. A tab switch sets the suppression flag. While the flag is set, the
    next search is swallowed: it makes no call, so the terms are handed to
    no listener, and it clears the flag, changing nothing else. The search
    after it is not swallowed: the terms are handed to the listeners that
    a search with a clear flag hands them to (the highest-priority ones,
    or else the default one), and the flag stays clear. *)
Theorem ignoreNextSearch_one_shot (tab : Z) (s0 s : TabsCommon)
    (sm sm' : SearchManager) (alwaysSearchAll alwaysSearchAll' : bool)
    (searchTerms searchTerms' : option string) :
  _ignoreNextSearch (after (_changeTabs tab s0)) = true
  ∧ (_ignoreNextSearch s = true →
     let swallowed := _onSearch sm alwaysSearchAll searchTerms s in
     let next := _onSearch sm' alwaysSearchAll' searchTerms' (after swallowed) in
     swallowed = (tt, set_ignoreNextSearch false s, [])
     ∧ deliveries (calls swallowed) = []
     ∧ _ignoreNextSearch (after swallowed) = false
     ∧ deliveries (calls next)
       = (if (0 <? numberOfSearchListeners sm')%nat && negb alwaysSearchAll'
          then (λ l, (l, searchTerms'))
                 <$> omap id (getHighestPrioritySearchListeners sm')
          else match getDefaultSearchListener sm' with
               | Some searchListener => [(searchListener, searchTerms')]
               | None => []
               end)
     ∧ _ignoreNextSearch (after next) = false).
Proof.
  split; [reflexivity |].
  intros Hi. cbn zeta. rewrite (onSearch_ignored _ _ _ _ Hi).
  unfold after at 1 2 4, calls at 1. cbn [fst snd].
  split; [done |]. split; [done |]. split; [done |].
  destruct (onSearch_effect sm' alwaysSearchAll' searchTerms'
              (set_ignoreNextSearch false s) eq_refl) as (_ & Hd & Hf).
  by split.
Qed.

End SearchDelivery.

(** ** The tab bar *)

Section RenderProperties.

Import Tabs.

Context `{TabBar}.

(** The buttons are made one per tab name, each from its name alone. *)
Lemma render_loop_buttons names i current indicatorLeft :
  (render_loop names i current indicatorLeft).1
  = (λ tab : string,
       {| key := tab; onPress := tabScreens !! tab;
          color := if bool_decide (Some current = tabScreens !! tab)
                   then garnet else charcoalGrey;
          name := tabIcons !! tab; size := tabIconSize |}) <$> names.
Proof.
  revert i indicatorLeft.
  induction names as [| tab rest IH]; intros i indicatorLeft; [done |].
  cbn [render_loop fmap list_fmap]. specialize (IH (i + 1)).
  destruct (bool_decide (Some current = tabScreens !! tab));
    match goal with
    | |- context [render_loop rest (i + 1) current ?l] =>
        specialize (IH l); destruct (render_loop rest (i + 1) current l)
    end; cbn in *; by rewrite IH.
Qed.

Lemma render_loop_indicator names i current indicatorLeft :
  ((∀ b, b ∈ (render_loop names i current indicatorLeft).1 →
         color b = charcoalGrey) →
   (render_loop names i current indicatorLeft).2 = indicatorLeft)
  ∧ (∀ (j : nat) b,
       (render_loop names i current indicatorLeft).1 !! j = Some b →
       color b = garnet →
       (∀ (k : nat) b', (j < k)%nat →
          (render_loop names i current indicatorLeft).1 !! k = Some b' →
          color b' = charcoalGrey) →
       (render_loop names i current indicatorLeft).2
       = indicatorWidth * (i + Z.of_nat j)).
Proof.
  revert i indicatorLeft.
  induction names as [| tab rest IH]; intros i indicatorLeft.
  { split; [done |]. intros j b Hj. cbn in Hj. by rewrite lookup_nil in Hj. }
  cbn [render_loop].
  set (selected := bool_decide (Some current = tabScreens !! tab)).
  set (next := if selected then indicatorWidth * i else indicatorLeft).
  destruct (IH (i + 1) next) as [IHnone IHlast].
  destruct (render_loop rest (i + 1) current next) as [tabs final] eqn:Hloop.
  cbn [fst snd] in *. split.
  - intros Hall.
    assert (Hsel : selected = false).
    { specialize (Hall _ (list_elem_of_here _ _)). cbn in Hall.
      by destruct selected. }
    rewrite IHnone.
    + subst next. by rewrite Hsel.
    + intros b Hb. apply Hall. by apply list_elem_of_further.
  - intros j b Hj Hgarnet Hlater. destruct j as [| j].
    + cbn in Hj. injection Hj as <-. cbn in Hgarnet.
      assert (Hsel : selected = true) by (by destruct selected).
      rewrite IHnone.
      * subst next. rewrite Hsel. f_equal. lia.
      * intros b Hb. apply list_elem_of_lookup in Hb as [k Hk].
        apply (Hlater (S k)); [lia | done].
    + cbn in Hj. rewrite (IHlast j b Hj Hgarnet).
      * f_equal. lia.
      * intros k b' Hlt Hk. apply (Hlater (S k)); [lia | done].
Qed.

Lemma render_indicator_under_highlighted_tab_aux (s : TabsCommon) :
  ((∀ b, b ∈ (render s).1 → color b = charcoalGrey) → (render s).2 = 0)
  ∧ (∀ (j : nat) b,
       (render s).1 !! j = Some b →
       color b = garnet →
       (∀ (k : nat) b', (j < k)%nat → (render s).1 !! k = Some b' →
                        color b' = charcoalGrey) →
       (render s).2 = indicatorWidth * Z.of_nat j).
Proof.
  unfold render.
  destruct (render_loop_indicator Constants_Tabs 0 (currentTab s) 0)
    as [Hnone Hlast].
  split; [exact Hnone |].
  intros j b Hj Hg Hlater. by rewrite (Hlast j b Hj Hg Hlater).
Qed.

(** X16. The indicator of the tab bar sits under the last highlighted tab:
    its [left] is [indicatorWidth] times the position of the last button
    drawn in garnet, and it is 0, under the first tab, when no button is
    highlighted. *)
Theorem render_indicator_under_highlighted_tab (s : TabsCommon) :
  ((∀ b, b ∈ (render s).1 → color b = charcoalGrey) → (render s).2 = 0)
  ∧ (∀ (j : nat) b,
       (render s).1 !! j = Some b →
       color b = garnet →
       (∀ (k : nat) b', (j < k)%nat → (render s).1 !! k = Some b' →
                        color b' = charcoalGrey) →
       (render s).2 = indicatorWidth * Z.of_nat j).
Proof. apply render_indicator_under_highlighted_tab_aux. Qed.

(** X17. Pressing a tab highlights it. When the tabs open different
    screens, after [_changeTabs] with the screen that the [j]-th button
    carries, [render] draws the [j]-th button, and no other, in garnet, and
    puts the indicator under it. *)
Theorem render_highlights_pressed_tab (s : TabsCommon) (j : nat)
    (pressed : TabButton) (tab : Z) :
  NoDup ((λ name, tabScreens !! name) <$> Constants_Tabs) →
  (render s).1 !! j = Some pressed →
  onPress pressed = Some tab →
  (∀ (k : nat) b, (render (after (_changeTabs tab s))).1 !! k = Some b →
                  (color b = garnet ↔ k = j))
  ∧ (render (after (_changeTabs tab s))).2 = indicatorWidth * Z.of_nat j.
Proof.
  intros Hnd Hj Hpress.
  unfold render in Hj. rewrite render_loop_buttons, list_lookup_fmap in Hj.
  destruct (Constants_Tabs !! j) as [nj |] eqn:Hnj; [| done].
  cbn in Hj. injection Hj as <-. cbn in Hpress.
  assert (Hcolor : ∀ (k : nat) b,
            (render (after (_changeTabs tab s))).1 !! k = Some b →
            (color b = garnet ↔ k = j)).
  { intros k b Hk. unfold render in Hk.
    rewrite render_loop_buttons, list_lookup_fmap in Hk.
    destruct (Constants_Tabs !! k) as [nk |] eqn:Hnk; [| done].
    cbn in Hk. injection Hk as <-. cbn.
    destruct (bool_decide (Some tab = tabScreens !! nk)) eqn:Hd.
    - apply bool_decide_eq_true in Hd. split; [intros _ | done].
      apply (NoDup_lookup _ k j (Some tab) Hnd);
        rewrite list_lookup_fmap; [rewrite Hnk | rewrite Hnj]; cbn; congruence.
    - apply bool_decide_eq_false in Hd. split; [done |].
      intros ->. rewrite Hnj in Hnk. injection Hnk as <-. congruence. }
  split; [exact Hcolor |].
  destruct ((render (after (_changeTabs tab s))).1 !! j) as [b |] eqn:Hb.
  - apply (proj2 (render_indicator_under_highlighted_tab_aux
                    (after (_changeTabs tab s))) j b Hb).
    + by apply (Hcolor j b Hb).
    + intros k b' Hlt Hk.
      destruct (color b') eqn:Hc; [done |].
      apply (Hcolor k b' Hk) in Hc. lia.
  - exfalso. unfold render in Hb.
    rewrite render_loop_buttons, list_lookup_fmap, Hnj in Hb. done.
Qed.

End RenderProperties.

(** ** The further properties on the sample collaborators *)

Section FurtherExamples.

Import Header Tabs Sample.

Local Abbreviation ct := Header.sampleTranslations.

Lemma header_last_write_wins_witness :
  field findTitleAction "type" = JStr "SET_HEADER_TITLE"
  ∧ field emptyTitleAction "type" = JStr "SET_HEADER_TITLE"
  ∧ header ct (Some (header ct None findTitleAction)) emptyTitleAction
    = header ct None emptyTitleAction.
Proof.
  split; [reflexivity |]. split; [reflexivity |].
  apply (header_last_write_wins ct None findTitleAction emptyTitleAction
           "SET_HEADER_TITLE").
  - apply list_elem_of_here.
  - reflexivity.
  - reflexivity.
Defined.

Lemma header_actions_commute_witness :
  field navigateBackAction "type" ≠ field showBackAction "type"
  ∧ header ct (Some (header ct None navigateBackAction)) showBackAction
    = header ct (Some (header ct None showBackAction)) navigateBackAction.
Proof.
  assert (Hne : field navigateBackAction "type" ≠ field showBackAction "type")
    by (vm_compute; discriminate).
  split; [exact Hne |].
  exact (header_actions_commute ct None navigateBackAction showBackAction Hne).
Defined.

Lemma defaultTitle_names_witness :
  truthy (prop sparseTranslations "fr") = false
  ∧ prop (defaultTitle sparseTranslations) "name_fr" = JStr "Guide de campus"
  ∧ prop sparseTranslations "en" = JObj ∅
  ∧ prop (defaultTitle sparseTranslations) "name_en" = JUndefined.
Proof.
  destruct (defaultTitle_names sparseTranslations)
    as (_ & Hfr & _ & _ & Hen).
  split; [reflexivity |]. split; [exact (Hfr eq_refl) |].
  split; [reflexivity |]. exact (Hen ∅ eq_refl eq_refl).
Defined.

Lemma screenStack_never_repeats_witness :
  noRepeat (screenStack atHome)
  ∧ noRepeat (screenStack
      (after (handle_all [E_navigateForward (SNum Search) (JStr "pizza");
                          E_searchAll (Some "cafe");
                          E_navigateBack] atHome))).
Proof.
  assert (Hn : noRepeat (screenStack atHome)).
  { intros i x y Hx Hy. destruct i; discriminate Hy. }
  split; [exact Hn |].
  exact (screenStack_never_repeats _ atHome Hn).
Defined.

Lemma screenStack_frozen_below_root_witness :
  isRootScreen (Some (SNum Find_Home)) = true
  ∧ [SNum Find_Home] `prefix_of`
      screenStack
        (after (handle_all [E_navigateBack; E_navigateBack;
                            E_searchAll (Some "cafe")] onSearchScreen)).
Proof.
  assert (Hr : isRootScreen (Some (SNum Find_Home)) = true)
    by (vm_compute; reflexivity).
  split; [exact Hr |].
  apply (screenStack_frozen_below_root _ onSearchScreen [] (SNum Find_Home) Hr).
  - by exists [SNum Search].
  - repeat constructor; intros tab; discriminate.
Defined.

Lemma screenStack_bottom_is_currentTab_witness :
  head (screenStack atHome) = Some (SNum (currentTab atHome))
  ∧ (1 ≤ length (screenStack
                   (after (handle_all [E_navigateForward (SNum Search) JUndefined;
                                       E_changeTabs Schedule_Home;
                                       E_navigateBack] atHome))))%nat.
Proof.
  split; [reflexivity |].
  refine (proj2 (proj2 (screenStack_bottom_is_currentTab _ atHome eq_refl _ _))).
  - vm_compute; reflexivity.
  - repeat constructor.
Defined.

Lemma backButton_follows_stack_witness :
  isRootScreen
    (stackTop (after (handle_all [E_navigateForward (SNum Search) JUndefined]
                        atHome))) = false
  ∧ backButton
      (calls (handle_all [E_navigateForward (SNum Search) JUndefined] atHome))
      false = true.
Proof.
  assert (Hn : isRootScreen
                 (stackTop (after (handle_all
                                     [E_navigateForward (SNum Search) JUndefined]
                                     atHome))) = false)
    by (vm_compute; reflexivity).
  split; [exact Hn |].
  apply (backButton_follows_stack _ atHome false); [| | | exact Hn].
  - exists (SNum Find_Home). split; [apply list_elem_of_here |].
    vm_compute; reflexivity.
  - vm_compute. discriminate.
  - repeat constructor.
Defined.

Lemma navigateForward_navigateBack_round_trip_witness :
  result (_getCurrentScreen atHome) ≠ SNum Search
  ∧ isRootScreen (Some (SNum Search)) = false
  ∧ _navigateBack (after (_navigateForward (SNum Search) (JStr "pizza") atHome))
    = (true, atHome, [Navigator_pop; NavBar_setState_showBackButton false]).
Proof.
  assert (Hc : result (_getCurrentScreen atHome) ≠ SNum Search)
    by (vm_compute; discriminate).
  assert (Hx : isRootScreen (Some (SNum Search)) = false)
    by (vm_compute; reflexivity).
  split; [exact Hc |]. split; [exact Hx |].
  exact (navigateForward_navigateBack_round_trip atHome (SNum Search)
           (JStr "pizza") Hc Hx).
Defined.

Lemma navigateBack_without_floor_witness :
  isRootScreen None = false
  ∧ screenStack emptied = []
  ∧ navigateBack_times 2 emptied
    = ([true; true], emptied, [Navigator_pop; Navigator_pop])
  ∧ isRootScreen (Some (SNum Search)) = false
  ∧ screenStack (after (navigateBack_times 3 (after (_changeTabs Search atHome))))
    = [].
Proof.
  assert (Hu : isRootScreen None = false) by (vm_compute; reflexivity).
  assert (Hx : isRootScreen (Some (SNum Search)) = false)
    by (vm_compute; reflexivity).
  destruct (navigateBack_without_floor emptied Search 2 Hu) as [Hempty _].
  destruct (navigateBack_without_floor atHome Search 2 Hu) as [_ Htab].
  split; [exact Hu |]. split; [reflexivity |].
  split; [exact (Hempty eq_refl) |]. split; [exact Hx |].
  exact (proj2 (Htab Hx)).
Defined.

Lemma navigateForward_on_empty_stack_witness :
  screenStack emptied = []
  ∧ _navigateForward (SNum 0) (JStr "pizza") emptied = (tt, emptied, [])
  ∧ SStr "0" ≠ SNum 0
  ∧ screenStack (after (_navigateForward (SStr "0") (JStr "pizza") emptied))
    = [SStr "0"].
Proof.
  destruct (navigateForward_on_empty_stack emptied (SNum 0) (JStr "pizza") eq_refl)
    as (_ & Hzero & _).
  destruct (navigateForward_on_empty_stack emptied (SStr "0") (JStr "pizza") eq_refl)
    as (_ & _ & Hother).
  split; [reflexivity |]. split; [exact (Hzero eq_refl) |].
  assert (Hne : SStr "0" ≠ SNum 0) by discriminate.
  split; [exact Hne | exact (Hother Hne)].
Defined.

Lemma searchAll_opens_search_witness :
  "cafe" ≠ ""
  ∧ result (_getCurrentScreen (after (_searchAll (Some "cafe") atHome)))
    = Views_Search
  ∧ _searchAll (Some "") atHome = (tt, atHome, []).
Proof.
  destruct (searchAll_opens_search (Some "cafe") atHome) as [_ Hterms].
  destruct (searchAll_opens_search (Some "") atHome) as [Hnone _].
  assert (Hne : "cafe" ≠ "") by discriminate.
  split; [exact Hne |].
  split; [exact (proj1 (Hterms "cafe" eq_refl Hne)) |].
  exact (Hnone (or_intror eq_refl)).
Defined.

Lemma render_indicator_under_highlighted_tab_witness :
  color <$> (render (after (_changeTabs Schedule_Home atHome))).1
  = [charcoalGrey; garnet; charcoalGrey; charcoalGrey]
  ∧ (render (after (_changeTabs Schedule_Home atHome))).2 = indicatorWidth * 1.
Proof.
  split; [reflexivity |].
  destruct (render_indicator_under_highlighted_tab
              (after (_changeTabs Schedule_Home atHome))) as [_ Hlast].
  refine (Hlast 1%nat _ eq_refl eq_refl _).
  intros k b' Hlt Hk.
  do 4 (destruct k as [| k]; [first [lia | by injection Hk as <-] |]).
  discriminate Hk.
Defined.

Lemma render_highlights_pressed_tab_witness :
  NoDup ((λ name, tabScreens !! name) <$> Constants_Tabs)
  ∧ key <$> (render atHome).1 !! 2%nat = Some "discover"
  ∧ onPress <$> (render atHome).1 !! 2%nat = Some (Some Discover_Home)
  ∧ (render (after (_changeTabs Discover_Home atHome))).2 = indicatorWidth * 2.
Proof.
  assert (Hnd : NoDup ((λ name, tabScreens !! name) <$> Constants_Tabs)).
  { apply (@bool_decide_unpack _ (NoDup_dec _)). vm_compute. exact I. }
  split; [exact Hnd |]. split; [reflexivity |]. split; [reflexivity |].
  exact (proj2 (render_highlights_pressed_tab atHome 2
                  {| key := "discover"; onPress := Some Discover_Home;
                     color := charcoalGrey; name := Some "near-me";
                     size := tabIconSize |}
                  Discover_Home Hnd eq_refl eq_refl)).
Defined.

Lemma ignoreNextSearch_survives_navigation_witness :
  calls (_onSearch searchManager false (Some "cafe")
           (after (handle_all [E_changeTabs Schedule_Home;
                               E_navigateForward (SNum Search) JUndefined;
                               E_navigateBack] atHome))) = [].
Proof.
  refine (proj2 (ignoreNextSearch_survives_navigation
                   [E_navigateForward (SNum Search) JUndefined; E_navigateBack]
                   atHome Schedule_Home searchManager false (Some "cafe") _)).
  repeat constructor.
Defined.

(** The scenario of the specification: with no listener but a default
    one, the default listener gets the terms once. *)
Lemma onSearch_delivery_witness :
  _ignoreNextSearch atHome = false
  ∧ getDefaultSearchListener onlyDefault = Some (Listener 0)
  ∧ deliveries (calls (_onSearch onlyDefault false (Some "cafe") atHome))
    = [(Listener 0, Some "cafe")]
  ∧ _onSearch onlyDefault false (Some "cafe") atHome
    = (tt, atHome, [onSearch (Listener 0) (Some "cafe")]).
Proof.
  destruct (proj1 (proj2 (onSearch_delivery onlyDefault false (Some "cafe")
                            atHome eq_refl))
              (or_introl eq_refl) (Listener 0) eq_refl) as (Hd & Hl & _).
  split; [reflexivity |]. split; [reflexivity |].
  split; [exact Hd | exact (Hl 0%nat eq_refl)].
Defined.

(** With listeners registered, only the highest tier hears of the search;
    with the component's own listener as the default one, the search opens
    the search screen. *)
Example onSearch_highest_tier :
  calls (_onSearch searchManager false (Some "cafe") atHome)
  = [onSearch (Listener 1) (Some "cafe"); onSearch (Listener 2) (Some "cafe")].
Proof. reflexivity. Qed.

Example onSearch_own_default :
  _onSearch mounted false (Some "cafe") atHome
  = (tt, onSearchScreen,
     [onSearch TabsSearchAll (Some "cafe");
      NavBar_setState_showBackButton true;
      Navigator_push (SNum Search) (JStr "cafe")]).
Proof. reflexivity. Qed.

Lemma ignoreNextSearch_one_shot_witness :
  _ignoreNextSearch (after (_changeTabs Schedule_Home atHome)) = true
  ∧ calls (_onSearch searchManager false (Some "cafe")
             (after (_changeTabs Schedule_Home atHome))) = []
  ∧ deliveries
      (calls (_onSearch searchManager false (Some "tea")
                (after (_onSearch searchManager false (Some "cafe")
                          (after (_changeTabs Schedule_Home atHome))))))
    = [(Listener 1, Some "tea"); (Listener 2, Some "tea")].
Proof.
  destruct (ignoreNextSearch_one_shot Schedule_Home atHome
              (after (_changeTabs Schedule_Home atHome))
              searchManager searchManager false false
              (Some "cafe") (Some "tea"))
    as [Hset Hnext].
  destruct (Hnext eq_refl) as (Hsw & _ & _ & Hd & _).
  split; [exact Hset |]. split; [by rewrite Hsw | exact Hd].
Defined.


Lemma header_counts_back_actions_witness :
  - maxExact ≤ backNavigation (initialState ct) ≤ maxExact
  ∧ backNavigation
      (reduce_all ct (initialState ct)
         [navigateBackAction; showBackAction; navigateBackAction])
    = 2.
Proof.
  assert (Hr : - maxExact ≤ backNavigation (initialState ct) ≤ maxExact)
    by (vm_compute; split; discriminate).
  split; [exact Hr |].
  refine (proj2 (proj2 (header_counts_back_actions ct (initialState ct)
                          [navigateBackAction; showBackAction; navigateBackAction]
                          Hr)) _).
  vm_compute. discriminate.
Defined.

End FurtherExamples.
